(** * MultiAgentAISystem: the streaming pipeline of [app.py]

    A shallow embedding of [src/app.py] (and of the [call_llm] method it
    shares with [src/multi_agent_ollama.py]): the fence extractor
    [extract_code], the backend call [call_llm], the agents' prompt
    template, and the generator [event_stream] that drives
    Coder, Tester, TestAgent, the unittest run and Documenter and yields
    server-sent-event text.

    Python [str] values are modelled as lists of characters, a character
    being its Unicode code point.

    The backend and the host are a [world]: what [requests.post] and
    [subprocess.run] come back with.  Writing a file always succeeds.  A run
    is the generator driven to its end or to the first exception that leaves
    it; the chunks it yielded are the stream the consumer received. *)

From Stdlib Require Import Ascii String.
From stdpp Require Import gmap strings list pretty.

Local Open Scope list_scope.

(** ** Text *)

Definition char := N.
Definition text := list char.

(** The character and the text of an ASCII literal. *)
Definition ch (a : ascii) : char := N_of_ascii a.
Definition txt (s : string) : text := ch <$> list_ascii_of_string s.

Definition LF : char := 10%N.
Definition CR : char := 13%N.
Definition DQUOTE : char := 34%N.
Definition BACKTICK : char := 96%N.
Definition BACKSLASH : char := 92%N.

(** [str.isspace] on one character: TAB, LF, VT, FF, CR, FS, GS, RS, US,
    SPACE, NEL (U+0085), NBSP (U+00A0), U+1680, U+2000 to U+200A, U+2028,
    U+2029, U+202F, U+205F and U+3000. *)
Definition is_space (c : char) : bool :=
  (((9 <=? c) && (c <=? 13)) || ((28 <=? c) && (c <=? 32))
   || (c =? 133) || (c =? 160) || (c =? 5760)
   || ((8192 <=? c) && (c <=? 8202)) || (c =? 8232) || (c =? 8233)
   || (c =? 8239) || (c =? 8287) || (c =? 12288))%N.

(** The characters at which [str.splitlines] breaks a line: LF, VT, FF, CR,
    FS, GS, RS, NEL, U+2028 and U+2029 (CR LF counts once, see
    [splitlines_from]). *)
Definition is_linebreak (c : char) : bool :=
  (((10 <=? c) && (c <=? 13)) || ((28 <=? c) && (c <=? 30)) || (c =? 133)
   || (c =? 8232) || (c =? 8233))%N.

(** [s.lstrip()] *)
Fixpoint lstrip (s : text) : text :=
  match s with
  | c :: s' => if is_space c then lstrip s' else s
  | [] => []
  end.

(** [s.rstrip()] *)
Definition rstrip (s : text) : text := rev (lstrip (rev s)).

(** [s.strip()]: whitespace is dropped from the left end, then from the
    right end of what is left. *)
Definition strip (s : text) : text := rstrip (lstrip s).

(** [s.splitlines()] with the line collected so far in [cur], reversed.
    A final line is produced only when it is not empty. *)
Fixpoint splitlines_from (cur : text) (s : text) : list text :=
  match s with
  | [] => match cur with [] => [] | _ => [rev cur] end
  | c :: s' =>
      if is_linebreak c then
        match s' with
        | d :: s'' =>
            if N.eqb c CR && N.eqb d LF
            then rev cur :: splitlines_from [] s''
            else rev cur :: splitlines_from [] s'
        | [] => rev cur :: splitlines_from [] s'
        end
      else splitlines_from (c :: cur) s'
  end.

Definition splitlines (s : text) : list text := splitlines_from [] s.

(** [s.startswith(p)], returning the rest of [s] after [p]. *)
Fixpoint strip_prefix (p s : text) : option text :=
  match p, s with
  | [], _ => Some s
  | a :: p', b :: s' => if N.eqb a b then strip_prefix p' s' else None
  | _ :: _, [] => None
  end.

(** ** Regular expressions, as far as [extract_code] uses them

    The pattern of [extract_code] is a sequence of literals, one optional
    literal (a greedy [(?:...)?]) and one lazy [(.*?)] group compiled with
    [re.S], so that the dot matches every character.  The matcher below is the
    backtracking matcher of [re] restricted to these items. *)

Inductive re_item :=
| Lit (l : text)        (* the characters of [l], in order *)
| OptLit (l : text)     (* [(?:l)?], greedy: with [l] first, then without *)
| LazyAnyGroup.         (* [(.*?)] under [re.S]: a capturing group *)

(** The lazy star: the shortest run of characters after which the rest of the
    pattern, [k], matches; [acc] is the run so far, reversed.  The run is
    the group's capture. *)
Fixpoint lazy_any (k : text -> option (list text)) (acc s : text)
  : option (list text) :=
  match k s with
  | Some g => Some (rev acc :: g)
  | None =>
      match s with
      | [] => None
      | c :: s' => lazy_any k (c :: acc) s'
      end
  end.

(** A match of the items [p] that starts at the head of [s]: the captured
    groups in order, or [None]. *)
Fixpoint match_here (p : list re_item) (s : text) : option (list text) :=
  match p with
  | [] => Some []
  | Lit l :: p' =>
      match strip_prefix l s with
      | Some s' => match_here p' s'
      | None => None
      end
  | OptLit l :: p' =>
      match
        match strip_prefix l s with
        | Some s' => match_here p' s'
        | None => None
        end
      with
      | Some g => Some g
      | None => match_here p' s
      end
  | LazyAnyGroup :: p' => lazy_any (match_here p') [] s
  end.

(** [re.search(p, s)]: the match at the leftmost start position, the end of
    the text included. *)
Fixpoint re_search (p : list re_item) (s : text) : option (list text) :=
  match match_here p s with
  | Some g => Some g
  | None =>
      match s with
      | [] => None
      | _ :: s' => re_search p s'
      end
  end.

(** [match.group(1)] *)
Definition group1 (g : list text) : text := hd [] g.

(** ** [extract_code] *)

Definition fence : text := [BACKTICK; BACKTICK; BACKTICK].
Definition python_hint : text := txt "python".

(** The pattern [```(?:python)?\n(.*?)```] *)
Definition fence_re : list re_item :=
  [Lit fence; OptLit python_hint; Lit [LF]; LazyAnyGroup; Lit fence].

Definition extract_code (t : text) : text :=
  match re_search fence_re t with
  | Some g => strip (group1 g)
  | None => strip t
  end.

(** ** Values produced by [json.loads] *)

#[warning="-register-all"] Inductive pyval :=
| PyNone
| PyBool (b : bool)
| PyNum (literal : text)
| PyStr (s : text)
| PyList (l : list pyval)
| PyDict (items : list (text * pyval)).

(** [d.get(k)] on a dict built from the pairs [items] in source order: a key
    that occurs twice holds the value given last. *)
Fixpoint dict_get (k : text) (items : list (text * pyval)) : option pyval :=
  match items with
  | [] => None
  | (k', v) :: rest =>
      match dict_get k rest with
      | Some v' => Some v'
      | None => if decide (k' = k) then Some v else None
      end
  end.

(** ** A JSON reader for the closed examples

    The pipeline is stated over any [json_loads] (see [Section Pipeline]).
    The examples run it with this reader of the JSON grammar: objects,
    arrays, strings with their escapes (a pair of surrogate [\u] escapes
    being one character), numbers kept as their literal, [true], [false],
    [null], and the [NaN] and [Infinity] that Python accepts. *)
Module JsonRef.

Definition is_ws (c : char) : bool :=
  ((c =? 32) || (c =? 9) || (c =? 10) || (c =? 13))%N.

Fixpoint skip_ws (s : text) : text :=
  match s with
  | c :: s' => if is_ws c then skip_ws s' else s
  | [] => []
  end.

Definition is_digit (c : char) : bool := ((48 <=? c) && (c <=? 57))%N.

Definition hex_val (c : char) : option N :=
  (if (48 <=? c) && (c <=? 57) then Some (c - 48)
   else if (65 <=? c) && (c <=? 70) then Some (c - 55)
   else if (97 <=? c) && (c <=? 102) then Some (c - 87)
   else None)%N.

(** The code unit of the four hex digits of a [\u] escape. *)
Definition hex4 (h1 h2 h3 h4 : char) : option N :=
  match hex_val h1, hex_val h2, hex_val h3, hex_val h4 with
  | Some a, Some b, Some c, Some d => Some (((a * 16 + b) * 16 + c) * 16 + d)%N
  | _, _, _, _ => None
  end.

Definition is_high_surrogate (u : N) : bool := ((55296 <=? u) && (u <=? 56319))%N.
Definition is_low_surrogate (u : N) : bool := ((56320 <=? u) && (u <=? 57343))%N.

(** The characters of a string literal after its opening quote. *)
Fixpoint read_string (acc s : text) : option (text * text) :=
  match s with
  | [] => None
  | c :: s' =>
      if N.eqb c DQUOTE then Some (rev acc, s')
      else if N.eqb c BACKSLASH then
        match s' with
        | e :: s'' =>
            let esc (x : char) := read_string (x :: acc) s'' in
            if N.eqb e DQUOTE then esc DQUOTE
            else if N.eqb e BACKSLASH then esc BACKSLASH
            else if N.eqb e (ch "/") then esc (ch "/")
            else if N.eqb e (ch "b") then esc (ch "008")
            else if N.eqb e (ch "f") then esc (ch "012")
            else if N.eqb e (ch "n") then esc LF
            else if N.eqb e (ch "r") then esc CR
            else if N.eqb e (ch "t") then esc (ch "009")
            else if N.eqb e (ch "u") then
              match s'' with
              | h1 :: h2 :: h3 :: h4 :: s3 =>
                  match hex4 h1 h2 h3 h4 with
                  | Some u =>
                      (* a surrogate pair is one character *)
                      match s3 with
                      | b :: v :: l1 :: l2 :: l3 :: l4 :: s4 =>
                          match hex4 l1 l2 l3 l4 with
                          | Some u2 =>
                              if is_high_surrogate u && N.eqb b BACKSLASH
                                 && N.eqb v (ch "u") && is_low_surrogate u2
                              then
                                read_string
                                  ((65536 + (u - 55296) * 1024 + (u2 - 56320))%N
                                   :: acc) s4
                              else read_string (u :: acc) s3
                          | None => read_string (u :: acc) s3
                          end
                      | _ => read_string (u :: acc) s3
                      end
                  | None => None
                  end
              | _ => None
              end
            else None
        | [] => None
        end
      else if (c <? 32)%N then None
      else read_string (c :: acc) s'
  end.

Fixpoint read_digits (acc s : text) : text * text :=
  match s with
  | c :: s' => if is_digit c then read_digits (c :: acc) s' else (rev acc, s)
  | [] => (rev acc, [])
  end.

(** A number literal: [-? int frac? exp?], kept as written. *)
Definition read_number (s : text) : option (text * text) :=
  let '(sign, s1) :=
    match s with
    | c :: r => if N.eqb c (ch "-") then ([c], r) else ([], s)
    | [] => ([], s)
    end in
  let '(int, s2) := read_digits [] s1 in
  match int with
  | [] => None
  | d :: more =>
      if N.eqb d (ch "0") && negb (bool_decide (more = [])) then None
      else
        let '(frac, s3) :=
          match s2 with
          | c :: r =>
              if N.eqb c (ch ".")
              then let '(ds, r') := read_digits [] r in (c :: ds, r')
              else ([], s2)
          | [] => ([], s2)
          end in
        if bool_decide (frac = [ch "."]) then None
        else
          let '(ex, s4) :=
            match s3 with
            | c :: r =>
                if N.eqb c (ch "e") || N.eqb c (ch "E") then
                  let '(sg, r1) :=
                    match r with
                    | g :: r' =>
                        if N.eqb g (ch "+") || N.eqb g (ch "-")
                        then ([g], r') else ([], r)
                    | [] => ([], r)
                    end in
                  let '(ds, r2) := read_digits [] r1 in
                  match ds with
                  | [] => ([], s3)
                  | _ => (c :: sg ++ ds, r2)
                  end
                else ([], s3)
            | [] => ([], s3)
            end in
          Some (sign ++ int ++ frac ++ ex, s4)
  end.

Definition keywords : list (text * pyval) :=
  [ (txt "true", PyBool true); (txt "false", PyBool false);
    (txt "null", PyNone); (txt "NaN", PyNum (txt "NaN"));
    (txt "Infinity", PyNum (txt "Infinity"));
    (txt "-Infinity", PyNum (txt "-Infinity")) ].

Fixpoint read_keyword (kws : list (text * pyval)) (s : text)
  : option (pyval * text) :=
  match kws with
  | [] => None
  | (k, v) :: rest =>
      match strip_prefix k s with
      | Some s' => Some (v, s')
      | None => read_keyword rest s
      end
  end.

Fixpoint read_value (fuel : nat) (s : text) : option (pyval * text) :=
  match fuel with
  | 0 => None
  | S f =>
      match skip_ws s with
      | [] => None
      | c :: r =>
          if N.eqb c (ch "{") then
            match skip_ws r with
            | c' :: r' =>
                if N.eqb c' (ch "}") then Some (PyDict [], r')
                else read_members f [] (c' :: r')
            | [] => None
            end
          else if N.eqb c (ch "[") then
            match skip_ws r with
            | c' :: r' =>
                if N.eqb c' (ch "]") then Some (PyList [], r')
                else read_elements f [] (c' :: r')
            | [] => None
            end
          else if N.eqb c DQUOTE then
            match read_string [] r with
            | Some (str, r') => Some (PyStr str, r')
            | None => None
            end
          else
            match read_keyword keywords (c :: r) with
            | Some res => Some res
            | None =>
                match read_number (c :: r) with
                | Some (lit, r') => Some (PyNum lit, r')
                | None => None
                end
            end
      end
  end
with read_members (fuel : nat) (acc : list (text * pyval)) (s : text)
  : option (pyval * text) :=
  match fuel with
  | 0 => None
  | S f =>
      match skip_ws s with
      | q :: r =>
          if N.eqb q DQUOTE then
            match read_string [] r with
            | Some (key, r1) =>
                match skip_ws r1 with
                | colon :: r2 =>
                    if N.eqb colon (ch ":") then
                      match read_value f r2 with
                      | Some (v, r3) =>
                          match skip_ws r3 with
                          | sep :: r4 =>
                              if N.eqb sep (ch ",")
                              then read_members f (acc ++ [(key, v)]) r4
                              else if N.eqb sep (ch "}")
                              then Some (PyDict (acc ++ [(key, v)]), r4)
                              else None
                          | [] => None
                          end
                      | None => None
                      end
                    else None
                | [] => None
                end
            | None => None
            end
          else None
      | [] => None
      end
  end
with read_elements (fuel : nat) (acc : list pyval) (s : text)
  : option (pyval * text) :=
  match fuel with
  | 0 => None
  | S f =>
      match read_value f s with
      | Some (v, r) =>
          match skip_ws r with
          | sep :: r' =>
              if N.eqb sep (ch ",") then read_elements f (acc ++ [v]) r'
              else if N.eqb sep (ch "]")
              then Some (PyList (acc ++ [v]), r')
              else None
          | [] => None
          end
      | None => None
      end
  end.

(** [json.loads(s)]: one value, with nothing but whitespace around it. *)
Definition json_loads (s : text) : option pyval :=
  match read_value (2 * length s + 2) s with
  | Some (v, rest) =>
      match skip_ws rest with
      | [] => Some v
      | _ => None
      end
  | None => None
  end.

End JsonRef.

(** ** Exceptions and results *)

(** The exceptions the pipeline can meet, by their Python names. *)
Inductive exn :=
| ConnectionError               (* [requests.post] could not reach the backend *)
| HTTPError (status : nat)      (* [raise_for_status] on a 4xx or 5xx reply *)
| JSONDecodeError               (* [json.loads] on the last line *)
| IndexError                    (* [lines[-1]] on an empty list *)
| AttributeError                (* [.get] or [.strip] on a value without it *)
| OSError.                      (* [subprocess.run] or [os.remove] *)

Inductive result (A : Type) :=
| Ok (a : A)
| Raise (e : exn).
Arguments Ok {A} a.
Arguments Raise {A} e.

(** ** The world outside the process *)

(** What [requests.post] comes back with. *)
Inductive http_result :=
| Unreachable
| Reply (status : nat) (body : text).

(** The files of the working directory, by name. *)
Abbreviation files := (gmap string text).

(** What [subprocess.run(argv, capture_output=True, text=True)] comes back
    with: the launch raises, or the child ran to its end, leaving the files
    as [files_after]. *)
Inductive proc_result :=
| LaunchError
| Completed (returncode : Z) (stdout stderr : text) (files_after : files).

(** The backend answers a request by its model and prompt (the other fields
    of the payload are constants); the host runs a command line in the files
    it finds. *)
Record world := World {
  post : text -> text -> http_result;
  spawn : list string -> files -> proc_result
}.

(** ** Frames on the wire

    The stream is read the way the page's [EventSource] reads it: a frame is
    a block of lines ended by an empty line, an [event: tag] line and the
    [data: ...] lines that follow it. *)
Record frame := Frame { tag : text; data : list text }.

#[global] Instance frame_eq_dec : EqDecision frame.
Proof. solve_decision. Defined.

(** The lines of a stream: the runs of characters ended by LF.  What follows
    the last LF is an unfinished line and is not returned. *)
Fixpoint lines_from (cur : text) (s : text) : list text :=
  match s with
  | [] => []
  | c :: s' =>
      if N.eqb c LF then rev cur :: lines_from [] s'
      else lines_from (c :: cur) s'
  end.

(** Reading the lines back into frames; [cur] is the frame being read. *)
Fixpoint frames_from (cur : option frame) (ls : list text) : list frame :=
  match ls with
  | [] => []
  | l :: ls' =>
      match l with
      | [] =>
          match cur with
          | Some f => f :: frames_from None ls'
          | None => frames_from None ls'
          end
      | _ =>
          match strip_prefix (txt "event: ") l with
          | Some t => frames_from (Some (Frame t [])) ls'
          | None =>
              match strip_prefix (txt "data: ") l, cur with
              | Some d, Some f =>
                  frames_from (Some (Frame (tag f) (data f ++ [d]))) ls'
              | _, _ => frames_from cur ls'
              end
          end
      end
  end.

Definition frames_of (stream : text) : list frame :=
  frames_from None (lines_from [] stream).

Definition status_frame (name : string) : frame := Frame (txt "status") [txt name].

Definition is_status (f : frame) : bool := bool_decide (tag f = txt "status").

(** The tags and status values of the protocol; a frame outside them would
    be an error frame. *)
Definition stage_tags : list text :=
  [txt "coder"; txt "tester"; txt "testagent"; txt "test_results";
   txt "documenter"].


Definition is_stage (f : frame) : bool := bool_decide (tag f ∈ stage_tags).



(** ** The generator's state *)

(** The files, the chunks yielded so far (oldest first), and a log of the
    child processes launched: the command line and the files it was given. *)
Record gstate := GState {
  fs : files;
  yielded : list text;
  launched : list (list string * files)
}.

Definition gen (A : Type) : Type := gstate -> result A * gstate.

#[global] Instance gen_ret : MRet gen := fun A a s => (Ok a, s).

(** Sequencing stops at the first exception and keeps the state reached. *)
#[global] Instance gen_bind : MBind gen := fun A B k m s =>
  match m s with
  | (Ok a, s') => k a s'
  | (Raise e, s') => (Raise e, s')
  end.

Definition lift {A} (r : result A) : gen A := fun s => (r, s).

(** [yield chunk] *)
Definition yield (chunk : text) : gen unit :=
  fun s => (Ok tt, GState (fs s) (yielded s ++ [chunk]) (launched s)).

(** [for line in lines: yield f"data: {line}\n"] *)
Fixpoint yield_data (lines : list text) : gen unit :=
  match lines with
  | [] => mret tt
  | l :: rest => yield (txt "data: " ++ l ++ [LF]) ;; yield_data rest
  end.

(** [with open(name, "w") as f: f.write(content)] *)
Definition write_file (name : string) (content : text) : gen unit :=
  fun s => (Ok tt, GState (<[name := content]> (fs s)) (yielded s) (launched s)).

(** [os.remove(name)]: raises when there is no such file. *)
Definition os_remove (name : string) : gen unit :=
  fun s =>
    match fs s !! name with
    | Some _ => (Ok tt, GState (delete name (fs s)) (yielded s) (launched s))
    | None => (Raise OSError, s)
    end.

(** The stream a consumer has received: the chunks in order. *)
Definition stream_of (s : gstate) : text := concat (yielded s).

Definition module_file : string := "reverse_string_module.py".
Definition test_file : string := "test_reverse_string.py".

(** The first lines of the test module, up to the generated tests. *)
Definition test_preamble : text :=
  txt "from reverse_string_module import reverse_string" ++ [LF]
  ++ txt "import unittest" ++ [LF] ++ [LF].

Definition unittest_argv : list string :=
  ["python"; "-m"; "unittest"; test_file]%string.

(** ** Agents *)

Record Agent := mkAgent { name : text; role : text; model : text }.

Definition coder : Agent :=
  mkAgent (txt "Coder")
    (txt "an expert Python developer who writes clear, efficient code")
    (txt "mistral").
Definition tester : Agent :=
  mkAgent (txt "Tester")
    (txt "a meticulous code reviewer who finds bugs and suggests improvements")
    (txt "mistral").
Definition test_agent : Agent :=
  mkAgent (txt "TestAgent")
    (txt "a Python testing expert who writes and runs unittest tests")
    (txt "mistral").
Definition documenter : Agent :=
  mkAgent (txt "Documenter")
    (txt "a technical writer who creates detailed docstrings and examples")
    (txt "mistral").

Definition task : text :=
  txt "Write a Python function `reverse_string(input_str: str) -> str` that returns the reversed string.".

(** The prompt of [Agent.generate] in [app.py]. *)
Definition prompt_of (a : Agent) (instruction : text) : text :=
  txt "You are " ++ name a ++ txt ", " ++ role a ++ txt "." ++ [LF]
  ++ txt "Instruction: " ++ instruction ++ [LF]
  ++ txt "Provide only the code (no explanation).".

(** The prompt of [Agent.generate] in [multi_agent_ollama.py]. *)
Definition cli_prompt_of (a : Agent) (instruction : text) : text :=
  txt "You are " ++ name a ++ txt ", " ++ role a ++ txt "." ++ [LF]
  ++ txt "Instruction: " ++ instruction ++ [LF]
  ++ txt "Provide your response below:".

Definition review_instruction (code : text) : text :=
  txt "Review the code and suggest fixes (only output code if patch):"
  ++ [LF] ++ code.
Definition tests_instruction (code : text) : text :=
  txt "Write Python unittest tests for this function, including import statements:"
  ++ [LF] ++ code.
Definition docs_instruction (code : text) : text :=
  txt "Write a detailed docstring with examples and edge case descriptions for the following code:"
  ++ [LF] ++ code.

(** ** The pipeline, over any JSON reader *)

Section Pipeline.

(** [json.loads]: the value a text parses to, [None] where Python raises a
    [ValueError].  [resp.json()] is the same reader on the reply's body. *)
Variable json_loads : text -> option pyval.

(** [data.get("response", "").strip()] *)
Definition response_text (data : pyval) : result text :=
  match data with
  | PyDict items =>
      match dict_get (txt "response") items with
      | None => Ok (strip [])
      | Some (PyStr s) => Ok (strip s)
      | Some _ => Raise AttributeError
      end
  | _ => Raise AttributeError
  end.

(** The body of a reply as data: the whole body if it parses, else the last
    line of the stripped body. *)
Definition reply_data (body : text) : result pyval :=
  match json_loads body with
  | Some d => Ok d
  | None =>
      match last (splitlines (strip body)) with
      | None => Raise IndexError
      | Some l =>
          match json_loads l with
          | Some d => Ok d
          | None => Raise JSONDecodeError
          end
      end
  end.

(** [resp.raise_for_status()] raises on the 4xx and 5xx codes. *)
Definition is_error_status (status : nat) : bool :=
  (400 <=? status) && (status <? 600).

(** [call_llm(model, prompt)], the same in both source files. *)
Definition call_llm (w : world) (model prompt : text) : result text :=
  match post w model prompt with
  | Unreachable => Raise ConnectionError
  | Reply status body =>
      if is_error_status status then Raise (HTTPError status)
      else
        match reply_data body with
        | Ok d => response_text d
        | Raise e => Raise e
        end
  end.

(** [Agent.generate] of [app.py] and of [multi_agent_ollama.py]. *)
Definition generate (w : world) (a : Agent) (instruction : text) : result text :=
  call_llm w (model a) (prompt_of a instruction).

Definition cli_generate (w : world) (a : Agent) (instruction : text)
  : result text :=
  call_llm w (model a) (cli_prompt_of a instruction).

(** [subprocess.run(argv, capture_output=True, text=True)] *)
Definition subprocess_run (w : world) (argv : list string)
  : gen (Z * text * text) :=
  fun s =>
    let s1 := GState (fs s) (yielded s) (launched s ++ [(argv, fs s)]) in
    match spawn w argv (fs s) with
    | LaunchError => (Raise OSError, s1)
    | Completed rc out err fs' =>
        (Ok (rc, out, err), GState fs' (yielded s1) (launched s1))
    end.

(** One tagged event: the header, a data line per line of the payload, and
    the empty line that ends the frame. *)
Definition yield_event (tag : string) (payload : text) : gen unit :=
  yield (txt "event: " ++ txt tag ++ [LF]) ;;
  yield_data (splitlines payload) ;;
  yield [LF].

(** [yield "event: status\ndata: <name>\n\n"] *)
Definition yield_status (name : string) : gen unit :=
  yield (txt "event: status" ++ [LF] ++ txt "data: " ++ txt name ++ [LF; LF]).

(** Lines 88 to 97: write the two files, run the tests, remove the files. *)
Definition run_tests (w : world) (code tests : text) : gen text :=
  write_file module_file code ;;
  write_file test_file tests ;;
  r ← subprocess_run w unittest_argv;
  os_remove module_file ;;
  os_remove test_file ;;
  let '(_, out, err) := r in
  mret (out ++ err).

(** The generator [event_stream] of [stream()]. *)
Definition event_stream (w : world) : gen unit :=
  (* Coder *)
  yield_status "Coder" ;;
  raw_code ← lift (generate w coder task);
  let code := extract_code raw_code in
  yield_event "coder" code ;;
  (* Tester *)
  yield_status "Tester" ;;
  raw_feedback ← lift (generate w tester (review_instruction code));
  let feedback := extract_code raw_feedback in
  yield_event "tester" feedback ;;
  (* TestAgent *)
  yield_status "TestAgent" ;;
  raw_tests ← lift (generate w test_agent (tests_instruction code));
  let tests_body := extract_code raw_tests in
  let tests := test_preamble ++ tests_body in
  yield_event "testagent" tests ;;
  (* Write & run tests *)
  results_text ← run_tests w code tests;
  yield_event "test_results" results_text ;;
  (* Documenter *)
  yield_status "Documenter" ;;
  raw_docs ← lift (generate w documenter (docs_instruction code));
  let docs := extract_code raw_docs in
  yield_event "documenter" docs ;;
  (* Done *)
  yield_status "Done".

(** A run from the files [fs0], with nothing yielded yet. *)
Definition run (w : world) (fs0 : files) : result unit * gstate :=
  event_stream w (GState fs0 [] []).

End Pipeline.

(** * Vocabulary of the properties *)

(** ** Text *)

Definition spaces (l : text) : Prop := Forall (λ c, is_space c = true) l.

(** A text that neither begins nor ends with whitespace. *)
Definition trimmed (t : text) : Prop :=
  (∀ c, head t = Some c → is_space c = false)
  ∧ (∀ c, last t = Some c → is_space c = false).

Definition no_linebreak (l : text) : Prop := Forall (λ c, is_linebreak c = false) l.


(** [p] occurs in [s]. *)
Definition occurs (p s : text) : Prop := ∃ l r, s = l ++ p ++ r.

Fixpoint occursb (p s : text) : bool :=
  bool_decide (is_Some (strip_prefix p s))
  || match s with
     | [] => false
     | _ :: s' => occursb p s'
     end.

(** ** The fence pattern *)

Definition is_hint (h : text) : Prop := h = [] ∨ h = python_hint.

(** The opening fence with the hint [h]: the three backticks, the hint and
    the end of the line. *)
Definition opening (h : text) : text := fence ++ h ++ [LF].

(** [p] begins at some position inside [body], in the text [body ++ rest]. *)
Definition starts_inside (p body rest : text) : Prop :=
  ∃ b1 b2, body = b1 ++ b2 ∧ b2 ≠ [] ∧ p `prefix_of` (b2 ++ rest).

(** A text with a fenced block the pattern can match. *)
Definition fenced (t : text) : Prop :=
  ∃ pre h body post, is_hint h ∧ t = pre ++ opening h ++ body ++ fence ++ post.

(** ** Frames and states *)

(** The text of one frame on the wire. *)
Definition frame_text (f : frame) : text :=
  txt "event: " ++ tag f ++ [LF]
  ++ concat ((λ l, txt "data: " ++ l ++ [LF]) <$> data f) ++ [LF].

Definition stage_frame (tag : string) (payload : text) : frame :=
  Frame (txt tag) (splitlines payload).

Definition wf_frame (f : frame) : Prop :=
  (LF ∉ tag f) ∧ Forall (λ l, LF ∉ l) (data f).

Definition status_chunk (name : string) : text :=
  txt "event: status" ++ [LF] ++ txt "data: " ++ txt name ++ [LF; LF].

Definition event_chunks (tag : string) (payload : text) : list text :=
  [txt "event: " ++ txt tag ++ [LF]]
  ++ ((λ l, txt "data: " ++ l ++ [LF]) <$> splitlines payload) ++ [[LF]].

(** The files the tests run in. *)
Definition fs_run (fs0 : files) (raw_code raw_tests : text) : files :=
  <[test_file := test_preamble ++ extract_code raw_tests]>
    (<[module_file := extract_code raw_code]> fs0).

(** The frames of a run, stage by stage. *)
Definition frames_coder (rc : text) : list frame :=
  [status_frame "Coder"; stage_frame "coder" (extract_code rc)].

Definition frames_tester (rc rf : text) : list frame :=
  frames_coder rc ++ [status_frame "Tester"; stage_frame "tester" (extract_code rf)].

Definition frames_testagent (rc rf rt : text) : list frame :=
  frames_tester rc rf
  ++ [status_frame "TestAgent";
      stage_frame "testagent" (test_preamble ++ extract_code rt)].

Definition frames_results (rc rf rt results : text) : list frame :=
  frames_testagent rc rf rt ++ [stage_frame "test_results" results].

Definition frames_documenter (rc rf rt results rd : text) : list frame :=
  frames_results rc rf rt results
  ++ [status_frame "Documenter"; stage_frame "documenter" (extract_code rd)].

Definition frames_done (rc rf rt results rd : text) : list frame :=
  frames_documenter rc rf rt results rd ++ [status_frame "Done"].

(** What a consumer and the host see of a state. *)
Definition observed (s : gstate) (frames : list frame) (f : files)
    (l : list (list string * files)) : Prop :=
  frames_of (stream_of s) = frames ∧ fs s = f ∧ launched s = l.

(** Every stage frame comes right after a status frame. *)
Fixpoint stages_announced_from (prev : option frame) (fr : list frame) : bool :=
  match fr with
  | [] => true
  | f :: fr' =>
      (if is_stage f
       then match prev with Some p => is_status p | None => false end
       else true)
      && stages_announced_from (Some f) fr'
  end.

Definition stages_announced (fr : list frame) : bool :=
  stages_announced_from None fr.

(** ** Every way a run can end *)

Section RunSpec.

Context (json_loads : text → option pyval).

(** The first three agents answered [rc], [rf] and [rt]. *)
Definition agents_ok (w : world) (rc rf rt : text) : Prop :=
  generate json_loads w coder task = Ok rc
  ∧ generate json_loads w tester (review_instruction (extract_code rc)) = Ok rf
  ∧ generate json_loads w test_agent (tests_instruction (extract_code rc)) = Ok rt.

(** Every way a run can end. *)
Inductive run_spec (w : world) (fs0 : files) : result unit * gstate → Prop :=
| CoderRaises e s :
    generate json_loads w coder task = Raise e →
    observed s [status_frame "Coder"] fs0 [] →
    run_spec w fs0 (Raise e, s)
| TesterRaises rc e s :
    generate json_loads w coder task = Ok rc →
    generate json_loads w tester (review_instruction (extract_code rc)) = Raise e →
    observed s (frames_coder rc ++ [status_frame "Tester"]) fs0 [] →
    run_spec w fs0 (Raise e, s)
| TestAgentRaises rc rf e s :
    generate json_loads w coder task = Ok rc →
    generate json_loads w tester (review_instruction (extract_code rc)) = Ok rf →
    generate json_loads w test_agent (tests_instruction (extract_code rc)) = Raise e →
    observed s (frames_tester rc rf ++ [status_frame "TestAgent"]) fs0 [] →
    run_spec w fs0 (Raise e, s)
| LaunchRaises rc rf rt s :
    agents_ok w rc rf rt →
    spawn w unittest_argv (fs_run fs0 rc rt) = LaunchError →
    observed s (frames_testagent rc rf rt) (fs_run fs0 rc rt)
      [(unittest_argv, fs_run fs0 rc rt)] →
    run_spec w fs0 (Raise OSError, s)
| RemoveModuleRaises rc rf rt code out err fs' s :
    agents_ok w rc rf rt →
    spawn w unittest_argv (fs_run fs0 rc rt) = Completed code out err fs' →
    fs' !! module_file = None →
    observed s (frames_testagent rc rf rt) fs'
      [(unittest_argv, fs_run fs0 rc rt)] →
    run_spec w fs0 (Raise OSError, s)
| RemoveTestRaises rc rf rt code out err fs' s :
    agents_ok w rc rf rt →
    spawn w unittest_argv (fs_run fs0 rc rt) = Completed code out err fs' →
    is_Some (fs' !! module_file) → fs' !! test_file = None →
    observed s (frames_testagent rc rf rt) (delete module_file fs')
      [(unittest_argv, fs_run fs0 rc rt)] →
    run_spec w fs0 (Raise OSError, s)
| DocumenterRaises rc rf rt code out err fs' e s :
    agents_ok w rc rf rt →
    spawn w unittest_argv (fs_run fs0 rc rt) = Completed code out err fs' →
    is_Some (fs' !! module_file) → is_Some (fs' !! test_file) →
    generate json_loads w documenter (docs_instruction (extract_code rc)) = Raise e →
    observed s
      (frames_results rc rf rt (out ++ err) ++ [status_frame "Documenter"])
      (delete test_file (delete module_file fs'))
      [(unittest_argv, fs_run fs0 rc rt)] →
    run_spec w fs0 (Raise e, s)
| RunDone rc rf rt code out err fs' rd s :
    agents_ok w rc rf rt →
    spawn w unittest_argv (fs_run fs0 rc rt) = Completed code out err fs' →
    is_Some (fs' !! module_file) → is_Some (fs' !! test_file) →
    generate json_loads w documenter (docs_instruction (extract_code rc)) = Ok rd →
    observed s (frames_done rc rf rt (out ++ err) rd)
      (delete test_file (delete module_file fs'))
      [(unittest_argv, fs_run fs0 rc rt)] →
    run_spec w fs0 (Ok tt, s).

End RunSpec.

(** ** Stub worlds for the closed examples *)

Definition quoted (a : text) : text := DQUOTE :: a ++ [DQUOTE].

(** A backend body [{"response": "<escaped>"}]; [escaped] is the answer as
    the inside of a JSON string. *)
Definition reply_body (escaped : text) : text :=
  txt "{" ++ quoted (txt "response") ++ txt ": " ++ quoted escaped ++ txt "}".

Definition starts_with (p s : text) : bool :=
  bool_decide (is_Some (strip_prefix p s)).

Definition coder_answer : text :=
  reply_body (txt "```python\ndef reverse_string(s): return s[::-1]\n```").

Definition tester_answer : text := reply_body (txt "Looks good.").

Definition test_agent_answer : text :=
  reply_body (txt "class T(unittest.TestCase):\n def test_x(self): pass").

Definition documenter_answer : text :=
  reply_body (txt "Reverse a string.").

(** A backend that answers each agent with a fixed text; [tester_up] tells
    whether the Tester's request gets through. *)
Definition stub_backend (tester_up : bool) (model prompt : text) : http_result :=
  if starts_with (txt "You are Coder") prompt then Reply 200 coder_answer
  else if starts_with (txt "You are Tester") prompt then
    if tester_up then Reply 200 tester_answer else Unreachable
  else if starts_with (txt "You are TestAgent") prompt
  then Reply 200 test_agent_answer
  else Reply 200 documenter_answer.

(** A host where the tests run and pass, and one with no [python] to launch. *)
Definition host_ok (argv : list string) (f : files) : proc_result :=
  Completed 0 [] (txt "." ++ [LF] ++ txt "OK" ++ [LF]) f.

Definition host_no_python (argv : list string) (f : files) : proc_result :=
  LaunchError.

Definition world_ok : world := World (stub_backend true) host_ok.

Definition world_tester_down : world := World (stub_backend false) host_ok.

Definition world_no_python : world := World (stub_backend true) host_no_python.

Definition stub_code : text := txt "def reverse_string(s): return s[::-1]".

Definition stub_tests_body : text :=
  txt "class T(unittest.TestCase):" ++ [LF] ++ txt " def test_x(self): pass".

Definition stub_raw_code : text :=
  txt "```python" ++ [LF] ++ stub_code ++ [LF] ++ txt "```".

(** A world whose backend gives one reply to every request. *)
Definition world_replying (status : nat) (body : text) : world :=
  World (λ _ _, Reply status body) host_ok.

Definition padded_answer : text := reply_body (txt "  \n def f(): pass \n\n").



(** ** What the page shows, and hosts that differ in the exit status *)

(** The lines put together again with LF between them: the [e.data] that the
    page's [EventSource] hands to a listener. *)
Fixpoint join_lines (ls : list text) : text :=
  match ls with
  | [] => []
  | l :: rest =>
      match rest with
      | [] => l
      | _ => l ++ LF :: join_lines rest
      end
  end.

(** A run of three backticks with another one somewhere after it. *)
Definition two_fences (t : text) : Prop :=
  ∃ a b c, t = a ++ fence ++ b ++ fence ++ c.

Fixpoint two_fencesb (t : text) : bool :=
  match strip_prefix fence t with
  | Some r => occursb fence r
  | None => false
  end
  || match t with
     | [] => false
     | _ :: t' => two_fencesb t'
     end.

(** A text whose only line breaks are LF. *)
Definition only_LF_breaks (t : text) : Prop :=
  Forall (λ c, is_linebreak c = true → c = LF) t.

(** The host [sp] with every exit status replaced by [rc]. *)
Definition with_returncode (rc : Z)
    (sp : list string → files → proc_result) : list string → files → proc_result :=
  λ argv f,
    match sp argv f with
    | LaunchError => LaunchError
    | Completed _ out err f' => Completed rc out err f'
    end.

(** A host whose tests delete the module they import. *)
Definition host_removes_module (argv : list string) (f : files) : proc_result :=
  Completed 0 [] [] (delete module_file f).

(** A state whose stream is whole frames, none of them with a line feed inside
    a line. *)
Definition framed (s : gstate) : Prop :=
  ∃ fr, Forall wf_frame fr ∧ stream_of s = concat (frame_text <$> fr).

(** [m] keeps the property [P] of the state. *)
Definition preserves {A} (P : gstate → Prop) (m : gen A) : Prop :=
  ∀ s, P s → P (m s).2.

(** ** [main] of [multi_agent_ollama.py] *)

(** The requests made so far, oldest first, as model and prompt, and what
    each [print] wrote. *)
Record cli_state := CliState {
  requests : list (text * text);
  printed : list text
}.

Definition cli (A : Type) : Type := cli_state → result A * cli_state.

#[global] Instance cli_ret : MRet cli := fun A a s => (Ok a, s).

#[global] Instance cli_bind : MBind cli := fun A B k m s =>
  match m s with
  | (Ok a, s') => k a s'
  | (Raise e, s') => (Raise e, s')
  end.

(** [sep.join(args)] *)
Fixpoint join_with (sep : text) (args : list text) : text :=
  match args with
  | [] => []
  | a :: rest =>
      match rest with
      | [] => a
      | _ => a ++ sep ++ join_with sep rest
      end
  end.

(** [print] of several arguments: the arguments with a space between them, then the end of
    the line. *)
Definition print_args (args : list text) : cli unit :=
  fun s => (Ok tt, CliState (requests s) (printed s ++ [join_with (txt " ") args ++ [LF]])).

(** No child process is launched by [main]. *)
Definition no_host (argv : list string) (f : files) : proc_result := LaunchError.

Definition cli_coder : Agent :=
  mkAgent (txt "Coder")
    (txt "an expert Python developer who writes clear, efficient, and bug-free code")
    (txt "mistral").
Definition cli_tester : Agent :=
  mkAgent (txt "Tester")
    (txt "a meticulous code reviewer who finds bugs and suggests improvements following best practices")
    (txt "mistral").
Definition cli_documenter : Agent :=
  mkAgent (txt "Documenter")
    (txt "a technical writer who writes comprehensive docstrings, usage examples, and readme sections")
    (txt "mistral").

Definition cli_review_instruction (code : text) : text :=
  txt "Review the following code and suggest bug fixes or improvements:"
  ++ [LF] ++ code.
Definition cli_improve_instruction (feedback code : text) : text :=
  txt "Improve the code based on this feedback:" ++ [LF] ++ feedback ++ [LF]
  ++ txt "Original code:" ++ [LF] ++ code.
Definition cli_docs_instruction (code : text) : text :=
  txt "Write a detailed docstring for the following function, include type hints, examples, and edge case descriptions:"
  ++ [LF] ++ code.

Definition max_rounds : nat := 2.

(** The request that asks [a] for [instruction], as logged. *)
Definition request_of (a : Agent) (instruction : text) : text * text :=
  (model a, cli_prompt_of a instruction).

Section Cli.

(** [json.loads] and [str.lower], and the backend, which answers the request
    number [n] of the run (from 0) by its model and prompt. *)
Variable json_loads : text → option pyval.
Variable lower : text → text.
Variable backend : nat → text → text → http_result.

(** [agent.generate(instruction)], the request logged. *)
Definition cli_ask (a : Agent) (instruction : text) : cli text :=
  fun s =>
    (cli_generate json_loads (World (backend (length (requests s))) no_host)
       a instruction,
     CliState (requests s ++ [(model a, cli_prompt_of a instruction)])
       (printed s)).

(** ["no issues" in feedback.lower() or "looks good" in feedback.lower()] *)
Definition approves (feedback : text) : bool :=
  occursb (txt "no issues") (lower feedback)
  || occursb (txt "looks good") (lower feedback).

(** The loop [for round_num in range(1, max_rounds + 1)], from the rounds
    still to go and the code so far to the code to document. *)
Fixpoint review_rounds (rounds : list nat) (code : text) : cli text :=
  match rounds with
  | [] => mret code
  | round_num :: rest =>
      feedback ← cli_ask cli_tester (cli_review_instruction code);
      print_args [txt "[Tester] Review round " ++ txt (pretty round_num)
                    ++ txt ":" ++ [LF];
                  feedback; [LF]] ;;
      if approves feedback then
        print_args [txt "[Tester] No further issues found." ++ [LF]] ;;
        mret code
      else
        code' ← cli_ask cli_coder (cli_improve_instruction feedback code);
        print_args [txt "[Coder] Updated code round " ++ txt (pretty round_num)
                      ++ txt ":" ++ [LF];
                    code'; [LF]] ;;
        review_rounds rest code'
  end.

Definition main : cli unit :=
  print_args [txt "Task: " ++ task ++ [LF]] ;;
  code ← cli_ask cli_coder task;
  print_args [txt "[Coder] Initial code:" ++ [LF]; code; [LF]] ;;
  code ← review_rounds (seq 1 max_rounds) code;
  docs ← cli_ask cli_documenter (cli_docs_instruction code);
  print_args [txt "[Documenter] Documentation:" ++ [LF]; docs].

(** [main] from the start of the process. *)
Definition run_main : result unit * cli_state := main (CliState [] []).

(** The answer to request [n], when it asks [a] for [instruction]. *)
Definition answer (n : nat) (a : Agent) (instruction : text) : result text :=
  cli_generate json_loads (World (backend n) no_host) a instruction.

End Cli.

(** [str.lower] on ASCII text, for the closed examples. *)
Definition lower_ascii (t : text) : text :=
  (λ c, if (65 <=? c) && (c <=? 90) then c + 32 else c)%N <$> t.

(** A backend that answers the requests in turn with the bodies [script], and
    is unreachable after them. *)
Definition scripted (script : list text) (n : nat) (model prompt : text)
  : http_result :=
  match script !! n with
  | Some body => Reply 200 body
  | None => Unreachable
  end.


Definition script_rejected : list text :=
  [ reply_body (txt "v0"); reply_body (txt "Use slicing.");
    reply_body (txt "v1"); reply_body (txt "Add type hints.");
    reply_body (txt "v2"); reply_body (txt "Docs.") ].

(** * Properties *)

(** ** Stripping *)

Lemma lstrip_decomp s : ∃ l, s = l ++ lstrip s ∧ spaces l.
Proof.
  induction s as [|c s [l [Hl Hs]]]; simpl.
  - exists []. split; [done | constructor].
  - destruct (is_space c) eqn:Hc.
    + exists (c :: l). split; [by rewrite Hl at 1 | by constructor].
    + exists []. split; [done | constructor].
Qed.

Lemma lstrip_head s c : head (lstrip s) = Some c → is_space c = false.
Proof.
  induction s as [|d s IH]; simpl; [done|].
  destruct (is_space d) eqn:Hd; [done|].
  simpl. by intros [= <-].
Qed.

Lemma lstrip_fixed s : (∀ c, head s = Some c → is_space c = false) → lstrip s = s.
Proof.
  destruct s as [|c s]; simpl; [done|].
  intros H. by rewrite (H c eq_refl).
Qed.

Lemma last_rev (s : text) : last (rev s) = head s.
Proof.
  destruct s as [|c s]; simpl; [done|]. by rewrite last_snoc.
Qed.

Lemma head_rev (s : text) : head (rev s) = last s.
Proof. by rewrite <- (rev_involutive s) at 2; rewrite last_rev. Qed.

Lemma rstrip_decomp s : ∃ r, s = rstrip s ++ r ∧ spaces r.
Proof.
  unfold rstrip. destruct (lstrip_decomp (rev s)) as [l [Hl Hs]].
  exists (rev l). split.
  - rewrite <- rev_app_distr, <- Hl. by rewrite rev_involutive.
  - unfold spaces in *. rewrite Forall_forall in *.
    intros c Hc. apply Hs. by apply list_elem_of_In, in_rev, list_elem_of_In.
Qed.

Lemma rstrip_last s c : last (rstrip s) = Some c → is_space c = false.
Proof. unfold rstrip. rewrite last_rev. apply lstrip_head. Qed.

Lemma rstrip_fixed s : (∀ c, last s = Some c → is_space c = false) → rstrip s = s.
Proof.
  intros H. unfold rstrip. rewrite lstrip_fixed; [apply rev_involutive|].
  intros c. rewrite head_rev. apply H.
Qed.

Lemma head_app_Some (a b : text) c : head a = Some c → head (a ++ b) = Some c.
Proof. by destruct a. Qed.

Lemma rstrip_head s c : head (rstrip s) = Some c → head s = Some c.
Proof.
  destruct (rstrip_decomp s) as [r [Hr _]]. intros H.
  rewrite Hr. by apply head_app_Some.
Qed.

Lemma strip_decomp s : ∃ l r, s = l ++ strip s ++ r ∧ spaces l ∧ spaces r.
Proof.
  destruct (lstrip_decomp s) as [l [Hl Hsl]].
  destruct (rstrip_decomp (lstrip s)) as [r [Hr Hsr]].
  exists l, r. unfold strip. by rewrite <- Hr.
Qed.

Lemma strip_trimmed s : trimmed (strip s).
Proof.
  split; intros c H.
  - apply (lstrip_head s). by apply rstrip_head.
  - by apply (rstrip_last (lstrip s)).
Qed.

Lemma strip_fixed s : trimmed s → strip s = s.
Proof.
  intros [Hh Hl]. unfold strip. rewrite lstrip_fixed by done. by apply rstrip_fixed.
Qed.

Lemma strip_idem s : strip (strip s) = strip s.
Proof. apply strip_fixed, strip_trimmed. Qed.

Lemma strip_nil : strip [] = [].
Proof. reflexivity. Qed.

Lemma lstrip_spaces_app l s : spaces l → lstrip (l ++ s) = lstrip s.
Proof.
  induction 1 as [|c l Hc Hl IH]; [done|].
  simpl. by rewrite Hc.
Qed.

(** ** Prefixes and occurrences *)

Lemma strip_prefix_Some p s r : strip_prefix p s = Some r ↔ s = p ++ r.
Proof.
  revert s. induction p as [|a p IH]; intros s; simpl.
  - split; [by intros [= ->] | by intros ->].
  - destruct s as [|b s]; [by split|].
    destruct (N.eqb_spec a b) as [->|Hne].
    + rewrite IH. split; [by intros -> | by intros [= ->]].
    + split; [done | intros [= ? ?]; by subst].
Qed.

Lemma strip_prefix_app p r : strip_prefix p (p ++ r) = Some r.
Proof. by apply strip_prefix_Some. Qed.

Lemma strip_prefix_is_Some p s : is_Some (strip_prefix p s) ↔ p `prefix_of` s.
Proof.
  split.
  - intros [r Hr]. exists r. by apply strip_prefix_Some.
  - intros [r ->]. rewrite strip_prefix_app. by eexists.
Qed.

Lemma strip_prefix_None p s : strip_prefix p s = None ↔ ¬ p `prefix_of` s.
Proof. rewrite <- strip_prefix_is_Some, eq_None_not_Some. done. Qed.

Lemma starts_inside_cons p c body rest :
  starts_inside p body rest → starts_inside p (c :: body) rest.
Proof. intros (b1 & b2 & -> & ? & ?). by exists (c :: b1), b2. Qed.

Lemma starts_inside_here p c body rest :
  p `prefix_of` (c :: body ++ rest) → starts_inside p (c :: body) rest.
Proof. intros ?. by exists [], (c :: body). Qed.

Lemma occursb_false p s : occursb p s = false → ¬ occurs p s.
Proof.
  intros Hb (l & r & ->). revert Hb. induction l as [|c l IH].
  - rewrite app_nil_l. destruct (p ++ r) eqn:E; cbn [occursb]; rewrite <- ?E;
      rewrite strip_prefix_app; intros H; apply orb_false_iff in H as [H _];
      apply bool_decide_eq_false in H; apply H; by eexists.
  - change ((c :: l) ++ ?x) with (c :: l ++ x). cbn [occursb].
    intros H. apply orb_false_iff in H as [_ H]. by apply IH.
Qed.

(** ** The lazy group and the closing fence *)

Lemma match_here_Lit l p s :
  match_here (Lit l :: p) s
  = match strip_prefix l s with
    | Some s' => match_here p s'
    | None => None
    end.
Proof. reflexivity. Qed.

Lemma closing_Some s g :
  match_here [Lit fence] s = Some g ↔ g = [] ∧ fence `prefix_of` s.
Proof.
  rewrite match_here_Lit. destruct (strip_prefix fence s) as [r|] eqn:H.
  - change (match_here [] r) with (Some (@nil text)).
    split; [intros [= <-]|intros [-> _]; done].
    split; [done|]. apply strip_prefix_is_Some. by rewrite H.
  - split; [done|]. intros [_ Hp]. by apply strip_prefix_None in H.
Qed.

Lemma closing_None s :
  match_here [Lit fence] s = None ↔ ¬ fence `prefix_of` s.
Proof.
  rewrite match_here_Lit. destruct (strip_prefix fence s) as [r|] eqn:H.
  - change (match_here [] r) with (Some (@nil text)).
    split; [done|]. intros Hn. destruct Hn. apply strip_prefix_is_Some. by rewrite H.
  - split; [|done]. intros _. by apply strip_prefix_None.
Qed.

Lemma lazy_any_first body post acc :
  ¬ starts_inside fence body (fence ++ post) →
  lazy_any (match_here [Lit fence]) acc (body ++ fence ++ post)
  = Some [rev acc ++ body].
Proof.
  revert acc. induction body as [|c body IH]; intros acc Hfirst.
  - rewrite app_nil_l, app_nil_r.
    destruct (fence ++ post) as [|x r] eqn:Hs; [done|].
    unfold lazy_any.
    assert (match_here [Lit fence] (x :: r) = Some []) as ->; [|done].
    apply closing_Some. split; [done|]. rewrite <- Hs. by exists post.
  - change ((c :: body) ++ fence ++ post) with (c :: body ++ fence ++ post).
    unfold lazy_any; fold lazy_any.
    assert (match_here [Lit fence] (c :: body ++ fence ++ post) = None) as ->.
    { apply closing_None. intros Hp. apply Hfirst. by apply starts_inside_here. }
    rewrite IH.
    + simpl. by rewrite <- app_assoc.
    + intros Hin. apply Hfirst. by apply starts_inside_cons.
Qed.

Lemma lazy_any_sound s acc g :
  lazy_any (match_here [Lit fence]) acc s = Some g →
  ∃ body post, s = body ++ fence ++ post ∧ g = [rev acc ++ body]
               ∧ ¬ starts_inside fence body (fence ++ post).
Proof.
  revert acc. induction s as [|c s IH]; intros acc.
  - simpl. done.
  - unfold lazy_any; fold lazy_any.
    destruct (match_here [Lit fence] (c :: s)) as [g0|] eqn:Hk.
    + intros [= <-]. apply closing_Some in Hk as [-> [post Hp]].
      exists [], post. rewrite app_nil_r. split_and!; [done..|].
      intros (b1 & b2 & Heq & Hne & _). by destruct b1, b2.
    + intros H. apply IH in H as (body & post & -> & -> & Hfirst).
      exists (c :: body), post. split_and!; [done| |].
      * simpl. by rewrite <- app_assoc.
      * intros (b1 & b2 & Heq & Hne & Hp).
        destruct b1 as [|d b1]; simpl in Heq.
        -- subst b2. by apply closing_None in Hk.
        -- injection Heq as -> ->. apply Hfirst. by exists b1, b2.
Qed.

Lemma lazy_any_complete l r acc :
  is_Some (lazy_any (match_here [Lit fence]) acc (l ++ fence ++ r)).
Proof.
  revert acc. induction l as [|c l IH]; intros acc.
  - rewrite app_nil_l.
    destruct (fence ++ r) as [|x s] eqn:Hs; [done|].
    unfold lazy_any.
    assert (match_here [Lit fence] (x :: s) = Some []) as ->; [|by eexists].
    apply closing_Some. split; [done|]. rewrite <- Hs. by exists r.
  - change ((c :: l) ++ fence ++ r) with (c :: l ++ fence ++ r).
    unfold lazy_any; fold lazy_any.
    destruct (match_here [Lit fence] (c :: l ++ fence ++ r)); [by eexists|].
    apply IH.
Qed.

(** ** A match at the head of the text *)

Lemma match_here_fence_re s :
  match_here fence_re s
  = match strip_prefix fence s with
    | None => None
    | Some s1 =>
        match
          match strip_prefix python_hint s1 with
          | Some s2 =>
              match strip_prefix [LF] s2 with
              | Some s3 => lazy_any (match_here [Lit fence]) [] s3
              | None => None
              end
          | None => None
          end
        with
        | Some g => Some g
        | None =>
            match strip_prefix [LF] s1 with
            | Some s3 => lazy_any (match_here [Lit fence]) [] s3
            | None => None
            end
        end
    end.
Proof. reflexivity. Qed.

Lemma match_here_sound s g :
  match_here fence_re s = Some g →
  ∃ h body post, is_hint h ∧ s = opening h ++ body ++ fence ++ post
                 ∧ g = [body] ∧ ¬ starts_inside fence body (fence ++ post).
Proof.
  rewrite match_here_fence_re.
  destruct (strip_prefix fence s) as [s1|] eqn:H1; [|done].
  apply strip_prefix_Some in H1 as ->.
  destruct (strip_prefix python_hint s1) as [s2|] eqn:H2.
  - apply strip_prefix_Some in H2 as ->.
    destruct (strip_prefix [LF] s2) as [s3|] eqn:H3.
    + apply strip_prefix_Some in H3 as ->.
      destruct (lazy_any _ [] s3) as [g'|] eqn:Hl.
      * intros [= <-]. apply lazy_any_sound in Hl as (body & post & -> & -> & Hf).
        exists python_hint, body, post. split_and!; [by right|done..].
      * done.
    + destruct (strip_prefix [LF] (python_hint ++ s2)) eqn:H4; done.
  - destruct (strip_prefix [LF] s1) as [s3|] eqn:H3; [|done].
    apply strip_prefix_Some in H3 as ->.
    intros Hl. apply lazy_any_sound in Hl as (body & post & -> & -> & Hf).
    exists [], body, post. split_and!; [by left|done..].
Qed.

Lemma match_here_opening s g :
  match_here fence_re s = Some g → ∃ h, is_hint h ∧ opening h `prefix_of` s.
Proof.
  intros H. apply match_here_sound in H as (h & body & post & Hh & -> & _).
  exists h. split; [done|]. by eexists.
Qed.

Lemma match_here_first h body post :
  is_hint h → ¬ starts_inside fence body (fence ++ post) →
  match_here fence_re (opening h ++ body ++ fence ++ post) = Some [body].
Proof.
  intros [-> | ->] Hf; rewrite match_here_fence_re;
    unfold opening; rewrite <- !app_assoc, strip_prefix_app.
  - rewrite app_nil_l. change ([LF] ++ ?x) with (LF :: x).
    change (strip_prefix python_hint (LF :: ?x)) with (@None text).
    change (strip_prefix [LF] (LF :: ?x)) with (Some x).
    by apply lazy_any_first.
  - rewrite !strip_prefix_app.
    rewrite (lazy_any_first body post [] Hf). done.
Qed.

Lemma match_here_complete h body post :
  is_hint h → is_Some (match_here fence_re (opening h ++ body ++ fence ++ post)).
Proof.
  intros [-> | ->]; rewrite match_here_fence_re;
    unfold opening; rewrite <- !app_assoc, strip_prefix_app.
  - rewrite app_nil_l. change ([LF] ++ ?x) with (LF :: x).
    change (strip_prefix python_hint (LF :: ?x)) with (@None text).
    change (strip_prefix [LF] (LF :: ?x)) with (Some x).
    apply lazy_any_complete.
  - rewrite !strip_prefix_app.
    destruct (lazy_any_complete body post []) as [g ->]. by eexists.
Qed.

(** ** The leftmost match *)

Lemma re_search_cons p c s :
  re_search p (c :: s)
  = match match_here p (c :: s) with
    | Some g => Some g
    | None => re_search p s
    end.
Proof. reflexivity. Qed.

Lemma re_search_sound t g :
  re_search fence_re t = Some g →
  ∃ pre h body post,
    is_hint h ∧ t = pre ++ opening h ++ body ++ fence ++ post
    ∧ g = [body] ∧ ¬ starts_inside fence body (fence ++ post).
Proof.
  induction t as [|c t IH].
  - done.
  - rewrite re_search_cons.
    destruct (match_here fence_re (c :: t)) as [g'|] eqn:Hm.
    + intros [= <-].
      apply match_here_sound in Hm as (h & body & post & Hh & Heq & -> & Hf).
      exists [], h, body, post. done.
    + intros H. apply IH in H as (pre & h & body & post & Hh & -> & -> & Hf).
      exists (c :: pre), h, body, post. done.
Qed.

Lemma re_search_here s g :
  match_here fence_re s = Some g → re_search fence_re s = Some g.
Proof. intros H. destruct s; cbn [re_search]; by rewrite H. Qed.

Lemma re_search_complete t : fenced t → is_Some (re_search fence_re t).
Proof.
  intros (pre & h & body & post & Hh & ->).
  induction pre as [|c pre IH].
  - destruct (match_here_complete h body post Hh) as [g Hg].
    rewrite app_nil_l, (re_search_here _ g Hg). by eexists.
  - change ((c :: pre) ++ ?x) with (c :: pre ++ x). rewrite re_search_cons.
    destruct (match_here fence_re _); [by eexists | done].
Qed.

Lemma re_search_first pre h body post :
  is_hint h →
  (∀ h', is_hint h' →
     ¬ starts_inside (opening h') pre (opening h ++ body ++ fence ++ post)) →
  ¬ starts_inside fence body (fence ++ post) →
  re_search fence_re (pre ++ opening h ++ body ++ fence ++ post) = Some [body].
Proof.
  intros Hh Hpre Hf. induction pre as [|c pre IH].
  - rewrite app_nil_l. by apply re_search_here, match_here_first.
  - change ((c :: pre) ++ ?x) with (c :: pre ++ x). rewrite re_search_cons.
    destruct (match_here fence_re _) as [g|] eqn:Hm.
    + apply match_here_opening in Hm as (h' & Hh' & Hp).
      destruct (Hpre h' Hh'). by apply starts_inside_here.
    + apply IH. intros h' Hh' Hin. apply (Hpre h' Hh').
      by apply starts_inside_cons.
Qed.

Lemma fence_in_strip s l r :
  strip s = l ++ fence ++ r → ∃ l' r', s = l' ++ fence ++ r'.
Proof.
  intros H. destruct (strip_decomp s) as (a & b & Hs & _).
  rewrite H in Hs. exists (a ++ l), (r ++ b). by rewrite Hs, <- !app_assoc.
Qed.

Lemma fence_inside body post l r :
  ¬ starts_inside fence body (fence ++ post) → body ≠ l ++ fence ++ r.
Proof.
  intros Hf ->. apply Hf. exists l, (fence ++ r). split_and!; [done..|].
  exists (r ++ fence ++ post). by rewrite <- !app_assoc.
Qed.

Lemma fenced_strip s : fenced (strip s) → fenced s.
Proof.
  intros (pre & h & body & post & Hh & H).
  destruct (strip_decomp s) as (a & b & Hs & _). rewrite H in Hs.
  exists (a ++ pre), h, body, (post ++ b). split; [done|].
  by rewrite Hs, <- !app_assoc.
Qed.

Lemma fenced_iff t : fenced t ↔ is_Some (re_search fence_re t).
Proof.
  split; [apply re_search_complete|].
  intros [g Hg].
  apply re_search_sound in Hg as (pre & h & body & post & Hh & -> & _).
  by exists pre, h, body, post.
Qed.

(** A fence that begins inside [body] lies in [body] and the two backticks
    after it. *)
Lemma fence_starts_inside body post :
  starts_inside fence body (fence ++ post) →
  occurs fence (body ++ [BACKTICK; BACKTICK]).
Proof.
  intros (b1 & b2 & -> & Hne & [k Hk]).
  destruct b2 as [|c1 [|c2 [|c3 b2]]]; [done|..]; simplify_eq/=.
  - exists b1, []. by rewrite <- !app_assoc.
  - exists b1, [BACKTICK]. by rewrite <- !app_assoc.
  - exists b1, (b2 ++ [BACKTICK; BACKTICK]). by rewrite <- !app_assoc.
Qed.

(** An opening fence that begins inside [pre], before a fence, ends inside
    [pre]: its last character is not a backtick. *)
Lemma opening_starts_inside h pre rest :
  is_hint h → starts_inside (opening h) pre (fence ++ rest) →
  occurs (opening h) pre.
Proof.
  intros Hh (b1 & b2 & -> & Hne & [k Hk]).
  destruct Hh as [-> | ->].
  - destruct b2 as [|c1 [|c2 [|c3 [|c4 b2]]]]; [done|..]; simplify_eq/=.
    by exists b1, b2.
  - destruct b2 as [|c1 [|c2 [|c3 [|c4 [|c5 [|c6 [|c7 [|c8 [|c9 [|c10 b2]]]]]]]]]];
      [done|..]; simplify_eq/=.
    by exists b1, b2.
Qed.

(** ** Claims about [extract_code] *)

(** C3 (as amended).  When the text is [pre], an opening fence whose hint is
    empty or the word python, [body], a closing fence and [post], where no
    such opening fence occurs in [pre] and the closing fence is the first run
    of three backticks after the opening line, [extract_code] returns [body]
    stripped, whatever [post] is. *)
Theorem extract_code_first_block pre h body post :
  is_hint h →
  (∀ h', is_hint h' → ¬ occurs (opening h') pre) →
  ¬ occurs fence (body ++ [BACKTICK; BACKTICK]) →
  extract_code (pre ++ opening h ++ body ++ fence ++ post) = strip body.
Proof.
  intros Hh Hpre Hbody. unfold extract_code.
  rewrite (re_search_first pre h body post); [done|done| |].
  - intros h' Hh' Hin. apply (Hpre h' Hh').
    unfold opening in Hin at 2. rewrite <- app_assoc in Hin.
    by apply opening_starts_inside in Hin.
  - intros Hin. by apply Hbody, (fence_starts_inside body post).
Qed.

Lemma extract_code_first_block_witness :
  extract_code
    (txt "Here you go:" ++ opening python_hint
       ++ (txt "def reverse_string(s): return s[::-1]" ++ [LF])
       ++ fence ++ txt " and ```more```")
  = txt "def reverse_string(s): return s[::-1]".
Proof.
  apply (extract_code_first_block (txt "Here you go:") python_hint
           (txt "def reverse_string(s): return s[::-1]" ++ [LF])
           (txt " and ```more```")).
  - by right.
  - intros h' [-> | ->]; by apply occursb_false.
  - by apply occursb_false.
Defined.

(** C3 as stated fails: a fenced block whose hint is another language is not
    recognised, and neither is one whose opening fence is not followed by
    the end of the line; the whole text comes back, fences included. *)
Lemma extract_code_other_hint :
  let t1 := fence ++ txt "js" ++ [LF] ++ txt "code" ++ [LF] ++ fence in
  let t2 := fence ++ txt "x = 1" ++ fence in
  (extract_code t1 = t1 ∧ extract_code t1 ≠ txt "code")
  ∧ (extract_code t2 = t2 ∧ extract_code t2 ≠ txt "x = 1").
Proof. split_and!; by vm_compute. Qed.

(** C4.  A text with no fenced block the pattern can match comes back
    stripped: the result neither begins nor ends with whitespace and the text
    is the result with whitespace around it. *)
Theorem extract_code_unfenced t :
  ¬ fenced t →
  extract_code t = strip t
  ∧ trimmed (extract_code t)
  ∧ ∃ l r, spaces l ∧ spaces r ∧ t = l ++ extract_code t ++ r.
Proof.
  intros Hn. unfold extract_code.
  destruct (re_search fence_re t) as [g|] eqn:Hs.
  - destruct Hn. apply fenced_iff. by eexists.
  - split_and!; [done | apply strip_trimmed |].
    destruct (strip_decomp t) as (l & r & Ht & Hl & Hr). by exists l, r.
Qed.

Lemma extract_code_unfenced_witness :
  extract_code [] = [] ∧ extract_code (txt "  x = 1 ") = txt "x = 1".
Proof.
  split.
  - refine (proj1 (extract_code_unfenced [] _)).
    rewrite fenced_iff. by vm_compute; intros [? ?].
  - refine (proj1 (extract_code_unfenced (txt "  x = 1 ") _)).
    rewrite fenced_iff. by vm_compute; intros [? ?].
Defined.

(** C5.  [extract_code] is idempotent. *)
Theorem extract_code_idempotent x :
  extract_code (extract_code x) = extract_code x.
Proof.
  unfold extract_code at 2 3.
  destruct (re_search fence_re x) as [g|] eqn:Hs.
  - apply re_search_sound in Hs as (pre & h & body & post & Hh & -> & -> & Hf).
    cbn [group1 hd]. unfold extract_code.
    destruct (re_search fence_re (strip body)) as [g|] eqn:Hs'.
    + apply re_search_sound in Hs' as (pre' & h' & b' & post' & _ & Heq & _).
      unfold opening in Heq. rewrite <- !app_assoc in Heq.
      apply fence_in_strip in Heq as (l & r & Heq).
      by apply (fence_inside _ _ l r) in Hf.
    + apply strip_idem.
  - unfold extract_code.
    destruct (re_search fence_re (strip x)) as [g|] eqn:Hs'.
    + assert (is_Some (re_search fence_re x)) as [g' Hg'].
      { apply fenced_iff, fenced_strip, fenced_iff. by eexists. }
      congruence.
    + apply strip_idem.
Qed.

(** ** Lines *)

Lemma splitlines_from_no_linebreak n : ∀ s cur,
  length s ≤ n → no_linebreak cur →
  Forall no_linebreak (splitlines_from cur s).
Proof.
  assert (Hrev : ∀ cur, no_linebreak cur → no_linebreak (rev cur)).
  { intros cur H. unfold no_linebreak in *. rewrite Forall_forall in *.
    intros c Hc. apply H. by apply list_elem_of_In, in_rev, list_elem_of_In. }
  induction n as [|n IH]; intros s cur Hlen Hcur.
  - destruct s; [|simpl in Hlen; lia]. simpl.
    destruct cur; [constructor|]. constructor; [by apply Hrev | constructor].
  - destruct s as [|c s].
    { simpl. destruct cur; [constructor|]. constructor; [by apply Hrev | constructor]. }
    simpl in Hlen. cbn [splitlines_from].
    destruct (is_linebreak c) eqn:Hc.
    + destruct s as [|d s].
      * constructor; [by apply Hrev|]. simpl. constructor.
      * simpl in Hlen.
        destruct (N.eqb c CR && N.eqb d LF);
          (constructor; [by apply Hrev|]); apply IH; simpl; try lia; constructor.
    + apply IH; [lia|]. by constructor.
Qed.

Lemma splitlines_no_linebreak s : Forall no_linebreak (splitlines s).
Proof. apply (splitlines_from_no_linebreak (length s)); [lia | constructor]. Qed.

Lemma no_linebreak_LF l : no_linebreak l → LF ∉ l.
Proof.
  unfold no_linebreak. rewrite Forall_forall. intros H Hin.
  by specialize (H _ Hin).
Qed.







(** ** Reading frames back *)

Lemma stage_frame_wf tag payload : LF ∉ txt tag → wf_frame (stage_frame tag payload).
Proof.
  intros Ht. split; [done|]. simpl.
  eapply Forall_impl; [apply splitlines_no_linebreak|]. apply no_linebreak_LF.
Qed.

Lemma status_frame_wf name : LF ∉ txt name → wf_frame (status_frame name).
Proof. intros H. split; [by apply (bool_decide_unpack _) | by repeat constructor]. Qed.

Lemma lines_from_line l : ∀ cur rest,
  LF ∉ l → lines_from cur (l ++ LF :: rest) = (rev cur ++ l) :: lines_from [] rest.
Proof.
  induction l as [|c l IH]; intros cur rest Hl.
  - simpl. by rewrite app_nil_r.
  - change ((c :: l) ++ ?x) with (c :: l ++ x). cbn [lines_from].
    destruct (N.eqb_spec c LF) as [->|Hne].
    + destruct Hl. by left.
    + rewrite IH; [|by intros ?; apply Hl; right].
      simpl. by rewrite <- app_assoc.
Qed.

Lemma lines_from_data ds : ∀ rest,
  Forall (λ l, LF ∉ l) ds →
  lines_from [] (concat ((λ l, txt "data: " ++ l ++ [LF]) <$> ds) ++ rest)
  = ((λ l, txt "data: " ++ l) <$> ds) ++ lines_from [] rest.
Proof.
  induction ds as [|d ds IH]; intros rest Hds; [done|].
  apply Forall_cons in Hds as [Hd Hds].
  rewrite fmap_cons. cbn [concat]. rewrite <- !app_assoc.
  rewrite app_assoc.
  change ([LF] ++ ?x) with (LF :: x).
  rewrite lines_from_line.
  - rewrite IH by done. done.
  - intros Hin. apply elem_of_app in Hin as [Hin|Hin]; [|done].
    by vm_compute in Hin; repeat (apply elem_of_cons in Hin as [?|Hin]; [done|]);
      apply elem_of_nil in Hin.
Qed.

Lemma frames_from_data ds : ∀ t acc ls,
  frames_from (Some (Frame t acc)) (((λ l, txt "data: " ++ l) <$> ds) ++ [] :: ls)
  = Frame t (acc ++ ds) :: frames_from None ls.
Proof.
  induction ds as [|d ds IH]; intros t acc ls.
  - simpl. by rewrite app_nil_r.
  - rewrite fmap_cons.
    change (frames_from (Some (Frame t acc)) (((txt "data: " ++ d) :: _) ++ _))
      with (frames_from (Some (Frame t (acc ++ [d])))
              (((λ l, txt "data: " ++ l) <$> ds) ++ [] :: ls)).
    rewrite IH. by rewrite <- app_assoc.
Qed.

Lemma frames_of_frame f rest :
  wf_frame f → frames_of (frame_text f ++ rest) = f :: frames_of rest.
Proof.
  destruct f as [t ds]. intros [Ht Hd]. unfold frames_of, frame_text.
  cbn [tag data] in *. rewrite <- !app_assoc.
  change (txt "event: " ++ t ++ [LF] ++ ?x) with ((txt "event: " ++ t) ++ LF :: x).
  rewrite lines_from_line.
  - rewrite lines_from_data by done.
    change ([LF] ++ rest) with ([] ++ LF :: rest).
    rewrite lines_from_line by apply not_elem_of_nil.
    change (rev [] ++ txt "event: " ++ t) with (txt "event: " ++ t).
    change (frames_from None ((txt "event: " ++ t) :: ?x))
      with (frames_from (Some (Frame t [])) x).
    change (rev [] ++ []) with (@nil char).
    by rewrite frames_from_data.
  - intros Hin. apply elem_of_app in Hin as [Hin|Hin]; [|done].
    by vm_compute in Hin; repeat (apply elem_of_cons in Hin as [?|Hin]; [done|]);
      apply elem_of_nil in Hin.
Qed.

Lemma frames_of_nil : frames_of [] = [].
Proof. reflexivity. Qed.

(** ** Steps of the generator *)

Lemma bind_lift_Ok {A B} (a : A) (k : A → gen B) s : (lift (Ok a) ≫= k) s = k a s.
Proof. reflexivity. Qed.

Lemma bind_lift_Raise {A B} e (k : A → gen B) s :
  (lift (Raise e) ≫= k) s = (Raise e, s).
Proof. reflexivity. Qed.

Lemma bind_Ok {A B} (m : gen A) (k : A → gen B) s a s' :
  m s = (Ok a, s') → (m ≫= k) s = k a s'.
Proof. unfold mbind, gen_bind. by intros ->. Qed.

Lemma bind_Raise {A B} (m : gen A) (k : A → gen B) s e s' :
  m s = (Raise e, s') → (m ≫= k) s = (Raise e, s').
Proof. unfold mbind, gen_bind. by intros ->. Qed.

Lemma yield_data_run lines f y l :
  yield_data lines (GState f y l)
  = (Ok tt, GState f (y ++ ((λ d, txt "data: " ++ d ++ [LF]) <$> lines)) l).
Proof.
  revert y. induction lines as [|d lines IH]; intros y.
  - cbn [yield_data fmap list_fmap]. by rewrite app_nil_r.
  - cbn [yield_data]. erewrite bind_Ok; [|reflexivity].
    cbn [fs yielded launched]. rewrite IH, fmap_cons.
    by rewrite <- app_assoc.
Qed.

Lemma bind_yield_status {B} name (k : unit → gen B) f y l :
  (yield_status name ≫= k) (GState f y l)
  = k tt (GState f (y ++ [status_chunk name]) l).
Proof. reflexivity. Qed.

Lemma yield_event_run tag payload f y l :
  yield_event tag payload (GState f y l)
  = (Ok tt, GState f (y ++ event_chunks tag payload) l).
Proof.
  unfold yield_event, event_chunks.
  erewrite bind_Ok; [|reflexivity]. cbn [fs yielded launched].
  erewrite bind_Ok; [|apply yield_data_run].
  unfold yield. cbn [fs yielded launched]. by rewrite <- !app_assoc.
Qed.

Lemma bind_yield_event {B} tag payload (k : unit → gen B) f y l :
  (yield_event tag payload ≫= k) (GState f y l)
  = k tt (GState f (y ++ event_chunks tag payload) l).
Proof. apply bind_Ok, yield_event_run. Qed.

Lemma run_tests_run w code tests f y l :
  run_tests w code tests (GState f y l)
  = let f1 := <[test_file := tests]> (<[module_file := code]> f) in
    let l1 := l ++ [(unittest_argv, f1)] in
    match spawn w unittest_argv f1 with
    | LaunchError => (Raise OSError, GState f1 y l1)
    | Completed rc out err f2 =>
        match f2 !! module_file with
        | None => (Raise OSError, GState f2 y l1)
        | Some _ =>
            match delete module_file f2 !! test_file with
            | None => (Raise OSError, GState (delete module_file f2) y l1)
            | Some _ =>
                (Ok (out ++ err),
                 GState (delete test_file (delete module_file f2)) y l1)
            end
        end
    end.
Proof.
  unfold run_tests, write_file, subprocess_run, os_remove, mbind, gen_bind, mret, gen_ret.
  cbn [fs yielded launched].
  destruct (spawn w unittest_argv _) as [|rc out err f2]; [done|].
  cbn [fs yielded launched].
  destruct (f2 !! module_file); [|done]. cbn [fs yielded launched].
  destruct (delete module_file f2 !! test_file); done.
Qed.

Lemma concat_status_chunk name :
  concat [status_chunk name] = frame_text (status_frame name).
Proof.
  unfold status_chunk, frame_text, status_frame. cbn [tag data concat fmap list_fmap].
  rewrite !app_nil_r, <- !app_assoc. done.
Qed.

Lemma concat_event_chunks tg payload :
  concat (event_chunks tg payload) = frame_text (stage_frame tg payload).
Proof.
  unfold event_chunks, frame_text, stage_frame. cbn [tag data].
  rewrite !concat_app. cbn [concat]. rewrite !app_nil_r, <- !app_assoc. done.
Qed.

Ltac no_LF := apply (bool_decide_unpack _); vm_compute; exact I.

Ltac frame_wf :=
  first [ apply stage_frame_wf; no_LF | apply status_frame_wf; no_LF ].

(** The frames of an explicit state: the chunks are put together frame by
    frame and read back. *)
Ltac read_frames :=
  unfold stream_of; cbn [yielded];
  match goal with |- frames_of ?t = _ => rewrite <- (app_nil_r t) end;
  rewrite ?concat_app, ?concat_status_chunk, ?concat_event_chunks;
  change (concat (@nil text)) with (@nil char);
  rewrite ?app_nil_l, <- ?app_assoc;
  repeat (rewrite frames_of_frame by frame_wf);
  rewrite frames_of_nil.

Ltac solve_observed :=
  split_and!; [read_frames; reflexivity | reflexivity | reflexivity].

(** ** The run meets its specification *)

Section RunFacts.

Context (json_loads : text → option pyval).

Lemma run_meets_spec w fs0 : run_spec json_loads w fs0 (run json_loads w fs0).
Proof.
  unfold run, event_stream.
  rewrite bind_yield_status.
  destruct (generate json_loads w coder task) as [rc|e] eqn:Hc.
  2:{ rewrite bind_lift_Raise. eapply CoderRaises; [done|]. solve_observed. }
  rewrite bind_lift_Ok. cbv beta zeta.
  rewrite bind_yield_event, bind_yield_status.
  destruct (generate json_loads w tester _) as [rf|e] eqn:Hf.
  2:{ rewrite bind_lift_Raise. eapply TesterRaises; [done..|]. solve_observed. }
  rewrite bind_lift_Ok. cbv beta zeta.
  rewrite bind_yield_event, bind_yield_status.
  destruct (generate json_loads w test_agent _) as [rt|e] eqn:Ht.
  2:{ rewrite bind_lift_Raise. eapply TestAgentRaises; [done..|]. solve_observed. }
  rewrite bind_lift_Ok. cbv beta zeta.
  rewrite bind_yield_event.
  assert (Hok : agents_ok json_loads w rc rf rt) by done.
  unfold mbind at 1, gen_bind at 1. rewrite run_tests_run. cbv zeta.
  change (<[test_file:=test_preamble ++ extract_code rt]>
            (<[module_file:=extract_code rc]> fs0)) with (fs_run fs0 rc rt).
  destruct (spawn w unittest_argv (fs_run fs0 rc rt)) as [|code out err fs'] eqn:Hs.
  { eapply LaunchRaises; [done..|]. solve_observed. }
  destruct (fs' !! module_file) as [m|] eqn:Hm.
  2:{ eapply RemoveModuleRaises; [done..|]. solve_observed. }
  rewrite lookup_delete_ne by done.
  destruct (fs' !! test_file) as [t|] eqn:Htf.
  2:{ eapply RemoveTestRaises; [done..| |done|]; [by rewrite Hm|]. solve_observed. }
  rewrite bind_yield_event, bind_yield_status.
  destruct (generate json_loads w documenter _) as [rd|e] eqn:Hd.
  2:{ rewrite bind_lift_Raise.
      eapply DocumenterRaises; [done..| | |done|]; [by rewrite Hm|by rewrite Htf|].
      solve_observed. }
  rewrite bind_lift_Ok. cbv beta zeta.
  rewrite bind_yield_event. unfold yield_status, yield. cbn [fs yielded launched].
  fold (status_chunk "Done").
  eapply RunDone; [done..| | |done|]; [by rewrite Hm|by rewrite Htf|].
  solve_observed.
Qed.

End RunFacts.

(** Two facts about one call agree. *)
Ltac same_call :=
  repeat match goal with
  | H1 : ?o = Ok ?x, H2 : ?o = Ok ?y |- _ =>
      assert (y = x) by congruence; clear H2; subst y
  | H1 : ?o = Ok _, H2 : ?o = Raise _ |- _ => congruence
  | H1 : ?o = LaunchError, H2 : ?o = Completed _ _ _ _ |- _ => congruence
  | H1 : ?o = Completed _ _ _ _, H2 : ?o = Completed _ _ _ _ |- _ =>
      rewrite H1 in H2; injection H2 as <- <- <- <-
  | H1 : ?o = None, H2 : is_Some ?o |- _ =>
      rewrite H1 in H2; by destruct H2
  end.

(** The ways the run [run json_loads w fs0] can have ended, with what the
    context knows about the calls. *)
Ltac run_cases json_loads w fs0 :=
  let H := fresh "Hrun" in
  pose proof (run_meets_spec json_loads w fs0) as H;
  destruct (run json_loads w fs0) as [? ?];
  inversion H; clear H; subst;
  unfold agents_ok, observed in *; cbn [fst snd] in *;
  destruct_and?; simplify_eq; same_call; cbv zeta;
  repeat match goal with
  | H : frames_of (stream_of ?g) = _ |- _ => rewrite ?H; clear H
  | H : fs ?g = _ |- _ => rewrite ?H; clear H
  | H : launched ?g = _ |- _ => rewrite ?H; clear H
  end.

(** ** Claims about the run *)

Section RunClaims.

Context (json_loads : text → option pyval).

(** When the child ran to its end and left the two files in place, both are
    gone when the test stage returns. *)
Lemma run_tests_cleanup w code tests f y l rc out err f2 :
  spawn w unittest_argv (<[test_file := tests]> (<[module_file := code]> f))
  = Completed rc out err f2 →
  is_Some (f2 !! module_file) → is_Some (f2 !! test_file) →
  ∃ s, run_tests w code tests (GState f y l) = (Ok (out ++ err), s)
       ∧ fs s !! module_file = None ∧ fs s !! test_file = None.
Proof.
  intros Hs [m Hm] [t Ht]. rewrite run_tests_run. cbv zeta. rewrite Hs, Hm.
  rewrite lookup_delete_ne by done. rewrite Ht.
  eexists. split; [done|]. cbn [fs].
  split; [by rewrite lookup_delete_ne, lookup_delete_eq | by rewrite lookup_delete_eq].
Qed.

(** C1, at the launch failure.  When [subprocess.run] raises, the generator
    stops there, before the two [os.remove] calls: both files are still on
    disk, with the module and the tests in them. *)
Theorem launch_failure_leaves_files w fs0 rc rf rt :
  agents_ok json_loads w rc rf rt →
  spawn w unittest_argv (fs_run fs0 rc rt) = LaunchError →
  (run json_loads w fs0).1 = Raise OSError
  ∧ fs (run json_loads w fs0).2 !! module_file = Some (extract_code rc)
  ∧ fs (run json_loads w fs0).2 !! test_file
    = Some (test_preamble ++ extract_code rt).
Proof.
  intros Hok Hl. run_cases json_loads w fs0.
  split_and!; [done| |].
  - unfold fs_run. by rewrite lookup_insert_ne, lookup_insert_eq.
  - unfold fs_run. by rewrite lookup_insert_eq.
Qed.

(** C2 (as amended).  A run that ends without an exception has sent exactly
    these frames: each agent's event after a status frame with the agent's
    name, the test results right after the TestAgent's event with no status
    frame of their own, and the status frame Done last. *)
Theorem successful_run_frames w fs0 :
  (run json_loads w fs0).1 = Ok tt →
  ∃ rc rf rt rd returncode out err files_after,
    agents_ok json_loads w rc rf rt
    ∧ spawn w unittest_argv (fs_run fs0 rc rt)
      = Completed returncode out err files_after
    ∧ generate json_loads w documenter (docs_instruction (extract_code rc))
      = Ok rd
    ∧ frames_of (stream_of (run json_loads w fs0).2)
      = [ status_frame "Coder"; stage_frame "coder" (extract_code rc);
          status_frame "Tester"; stage_frame "tester" (extract_code rf);
          status_frame "TestAgent";
          stage_frame "testagent" (test_preamble ++ extract_code rt);
          stage_frame "test_results" (out ++ err);
          status_frame "Documenter";
          stage_frame "documenter" (extract_code rd);
          status_frame "Done" ].
Proof.
  intros Hr. run_cases json_loads w fs0.
  by eexists _, _, _, _, _, _, _, _.
Qed.


(** C7 (as amended).  When launching the tests raises, the exception leaves
    the generator: the stream stops after the TestAgent's event, with no
    frame for the test results, for the Documenter or for Done. *)
Theorem launch_failure_ends_stream w fs0 rc rf rt :
  agents_ok json_loads w rc rf rt →
  spawn w unittest_argv (fs_run fs0 rc rt) = LaunchError →
  (run json_loads w fs0).1 = Raise OSError
  ∧ frames_of (stream_of (run json_loads w fs0).2)
    = [ status_frame "Coder"; stage_frame "coder" (extract_code rc);
        status_frame "Tester"; stage_frame "tester" (extract_code rf);
        status_frame "TestAgent";
        stage_frame "testagent" (test_preamble ++ extract_code rt) ].
Proof.
  intros Hok Hl. run_cases json_loads w fs0. done.
Qed.


End RunClaims.

(** *** The claims on the stub worlds *)

Lemma launch_failure_leaves_files_witness :
  (run JsonRef.json_loads world_no_python ∅).1 = Raise OSError
  ∧ fs (run JsonRef.json_loads world_no_python ∅).2 !! module_file
    = Some stub_code
  ∧ fs (run JsonRef.json_loads world_no_python ∅).2 !! test_file
    = Some (test_preamble ++ stub_tests_body).
Proof.
  apply (launch_failure_leaves_files JsonRef.json_loads world_no_python ∅
           stub_raw_code (txt "Looks good.") stub_tests_body).
  - split_and!; by vm_compute.
  - reflexivity.
Defined.

(** C2 as stated fails: in a run where every call succeeds, the frame before
    the test results is the TestAgent's event, not a status frame. *)
Lemma test_results_not_announced :
  (run JsonRef.json_loads world_ok ∅).1 = Ok tt
  ∧ stages_announced
      (frames_of (stream_of (run JsonRef.json_loads world_ok ∅).2)) = false
  ∧ ∃ before after,
      frames_of (stream_of (run JsonRef.json_loads world_ok ∅).2)
      = before
        ++ [stage_frame "testagent" (test_preamble ++ stub_tests_body);
            stage_frame "test_results" (txt "." ++ [LF] ++ txt "OK" ++ [LF])]
        ++ after.
Proof.
  split_and!; [by vm_compute..|].
  eexists (take 5 (frames_of (stream_of (run JsonRef.json_loads world_ok ∅).2))),
          (drop 7 (frames_of (stream_of (run JsonRef.json_loads world_ok ∅).2))).
  by vm_compute.
Qed.

Lemma successful_run_frames_witness :
  ∃ rc rf rt rd returncode out err files_after,
    agents_ok JsonRef.json_loads world_ok rc rf rt
    ∧ spawn world_ok unittest_argv (fs_run ∅ rc rt)
      = Completed returncode out err files_after
    ∧ generate JsonRef.json_loads world_ok documenter
        (docs_instruction (extract_code rc))
      = Ok rd
    ∧ frames_of (stream_of (run JsonRef.json_loads world_ok ∅).2)
      = [ status_frame "Coder"; stage_frame "coder" (extract_code rc);
          status_frame "Tester"; stage_frame "tester" (extract_code rf);
          status_frame "TestAgent";
          stage_frame "testagent" (test_preamble ++ extract_code rt);
          stage_frame "test_results" (out ++ err);
          status_frame "Documenter";
          stage_frame "documenter" (extract_code rd);
          status_frame "Done" ].
Proof.
  apply (successful_run_frames JsonRef.json_loads world_ok ∅).
  by vm_compute.
Defined.



(** C7 as stated fails: with no [python] to launch, the run raises after the
    TestAgent's event; no frame carries the test results, and neither the
    Documenter's event nor Done follows. *)
Lemma launch_failure_no_documenter :
  (run JsonRef.json_loads world_no_python ∅).1 = Raise OSError
  ∧ last (frames_of (stream_of (run JsonRef.json_loads world_no_python ∅).2))
    = Some (stage_frame "testagent" (test_preamble ++ stub_tests_body))
  ∧ existsb
      (λ f, bool_decide
              (tag f ∈ [txt "test_results"; txt "documenter"])
            || bool_decide (f = status_frame "Done"))
      (frames_of (stream_of (run JsonRef.json_loads world_no_python ∅).2))
    = false.
Proof. split_and!; by vm_compute. Qed.

Lemma launch_failure_ends_stream_witness :
  (run JsonRef.json_loads world_no_python ∅).1 = Raise OSError
  ∧ frames_of (stream_of (run JsonRef.json_loads world_no_python ∅).2)
    = [ status_frame "Coder"; stage_frame "coder" stub_code;
        status_frame "Tester"; stage_frame "tester" (txt "Looks good.");
        status_frame "TestAgent";
        stage_frame "testagent" (test_preamble ++ stub_tests_body) ].
Proof.
  apply (launch_failure_ends_stream JsonRef.json_loads world_no_python ∅
           stub_raw_code (txt "Looks good.") stub_tests_body).
  - split_and!; by vm_compute.
  - reflexivity.
Defined.


(** ** Claims about the backend call *)

Section CallClaims.

Context (json_loads : text → option pyval).

Lemma response_text_stripped d t : response_text d = Ok t → ∃ raw, t = strip raw.
Proof.
  destruct d as [| | | | |items]; try done. simpl.
  destruct (dict_get _ items) as [[| | |s| |]|]; try done; intros [= <-]; by eexists.
Qed.

Lemma call_llm_Reply w model prompt status body :
  post w model prompt = Reply status body → is_error_status status = false →
  call_llm json_loads w model prompt
  = match reply_data json_loads body with
    | Ok d => response_text d
    | Raise e => Raise e
    end.
Proof. intros Hp Hs. unfold call_llm. by rewrite Hp, Hs. Qed.


(** C10.  Whatever the backend replies, a text that [call_llm] returns has
    been stripped: it neither begins nor ends with whitespace. *)
Theorem call_llm_stripped w model prompt t :
  call_llm json_loads w model prompt = Ok t →
  trimmed t ∧ strip t = t.
Proof.
  unfold call_llm. destruct (post w model prompt) as [|status body]; [done|].
  destruct (is_error_status status); [done|].
  destruct (reply_data json_loads body) as [d|e]; [|done].
  intros [raw ->]%response_text_stripped.
  split; [apply strip_trimmed | apply strip_idem].
Qed.

(** Both [Agent.generate] methods return what [call_llm] returns. *)
Lemma generate_stripped w a instruction t :
  generate json_loads w a instruction = Ok t
  ∨ cli_generate json_loads w a instruction = Ok t →
  trimmed t.
Proof. intros [H|H]; by apply call_llm_stripped in H as [? _]. Qed.

End CallClaims.

(** *** The claims on the stub worlds *)

Lemma call_llm_stripped_witness :
  call_llm JsonRef.json_loads (world_replying 200 padded_answer)
    (txt "mistral") task = Ok (txt "def f(): pass")
  ∧ trimmed (txt "def f(): pass").
Proof.
  split; [by vm_compute|].
  refine (proj1 (call_llm_stripped JsonRef.json_loads
                   (world_replying 200 padded_answer) (txt "mistral") task
                   (txt "def f(): pass") _)).
  by vm_compute.
Defined.





(** * Further properties *)

(** ** [extract_code] *)

(** What [extract_code] returns is a part of its input with no whitespace at
    either end. *)
Theorem extract_code_part_of_input t :
  trimmed (extract_code t) ∧ occurs (extract_code t) t.
Proof.
  unfold extract_code.
  destruct (re_search fence_re t) as [g|] eqn:Hs.
  - apply re_search_sound in Hs as (pre & h & body & post & Hh & -> & -> & Hf).
    cbn [group1 hd]. split; [apply strip_trimmed|].
    destruct (strip_decomp body) as (l & r & Hb & _).
    exists (pre ++ opening h ++ l), (r ++ fence ++ post).
    rewrite Hb at 1. by rewrite <- !app_assoc.
  - split; [apply strip_trimmed|].
    destruct (strip_decomp t) as (l & r & Ht & _). by exists l, r.
Qed.

(** When the pattern finds a block, no run of three backticks is left in
    the result. *)
Theorem extract_code_drops_fences t :
  fenced t → ¬ occurs fence (extract_code t).
Proof.
  intros [g Hs]%fenced_iff. unfold extract_code. rewrite Hs.
  apply re_search_sound in Hs as (pre & h & body & post & Hh & -> & -> & Hf).
  cbn [group1 hd]. intros (l & r & Heq).
  apply fence_in_strip in Heq as (l' & r' & Heq).
  by apply (fence_inside _ _ l' r') in Hf.
Qed.

Lemma extract_code_drops_fences_witness :
  ¬ occurs fence
      (extract_code (txt "Sure:" ++ opening [] ++ txt "x = 1" ++ fence ++ txt "!")).
Proof.
  apply extract_code_drops_fences.
  exists (txt "Sure:"), [], (txt "x = 1"), (txt "!"). split; [by left | done].
Defined.

Lemma occursb_true p s : occurs p s → occursb p s = true.
Proof.
  intros (l & r & ->). induction l as [|c l IH].
  - rewrite app_nil_l. destruct (p ++ r) eqn:E; cbn [occursb]; rewrite <- ?E;
      rewrite strip_prefix_app; apply orb_true_iff; left;
      apply bool_decide_eq_true; by eexists.
  - change ((c :: l) ++ ?x) with (c :: l ++ x). cbn [occursb].
    apply orb_true_iff. by right.
Qed.

(** A fence that is never closed is no block: a text without two runs of
    three backticks, one after the other, comes back whole and stripped, its
    opening fence included. *)
Theorem extract_code_unclosed_fence t :
  ¬ two_fences t → extract_code t = strip t.
Proof.
  intros Hone. unfold extract_code.
  destruct (re_search fence_re t) as [g|] eqn:Hs; [|done].
  apply re_search_sound in Hs as (pre & h & body & post & Hh & -> & -> & Hf).
  destruct Hone. exists pre, (h ++ [LF] ++ body), post.
  unfold opening. by rewrite <- !app_assoc.
Qed.

Lemma two_fencesb_true t : two_fences t → two_fencesb t = true.
Proof.
  intros (a & b & c & ->). induction a as [|x a IH].
  - rewrite app_nil_l.
    destruct (fence ++ b ++ fence ++ c) eqn:E; cbn [two_fencesb]; rewrite <- ?E;
      rewrite strip_prefix_app; apply orb_true_iff; left;
      apply occursb_true; by exists b, c.
  - change ((x :: a) ++ ?y) with (x :: a ++ y). cbn [two_fencesb].
    apply orb_true_iff. by right.
Qed.

Lemma extract_code_unclosed_fence_witness :
  extract_code (opening python_hint ++ txt "def f(): pass ")
  = opening python_hint ++ txt "def f(): pass".
Proof.
  apply (extract_code_unclosed_fence (opening python_hint ++ txt "def f(): pass ")).
  intros H%two_fencesb_true. by vm_compute in H.
Defined.

(** ** [call_llm] *)

Lemma strip_spaces s : spaces s → strip s = [].
Proof.
  intros Hs. unfold strip.
  rewrite <- (app_nil_r s), lstrip_spaces_app by done. done.
Qed.

Section CallFacts.

Context (json_loads : text → option pyval).

(** [call_llm] returns a text exactly when the reply's status is outside
    400 to 599, the reply's data is an object, and the object's response
    field is absent, giving the empty text, or a string, giving that string
    stripped. *)
Theorem call_llm_returns_iff w model prompt t :
  call_llm json_loads w model prompt = Ok t ↔
  ∃ status body items,
    post w model prompt = Reply status body
    ∧ (status < 400 ∨ 600 ≤ status)
    ∧ reply_data json_loads body = Ok (PyDict items)
    ∧ (dict_get (txt "response") items = None ∧ t = []
       ∨ ∃ s, dict_get (txt "response") items = Some (PyStr s) ∧ t = strip s).
Proof.
  unfold call_llm. split.
  - destruct (post w model prompt) as [|status body]; [done|].
    destruct (is_error_status status) eqn:Hs; [done|].
    assert (status < 400 ∨ 600 ≤ status) as Hst.
    { unfold is_error_status in Hs. apply andb_false_iff in Hs as [H|H];
        [left; by apply Nat.leb_gt | right; by apply Nat.ltb_ge]. }
    destruct (reply_data json_loads body) as [d|e] eqn:Hd; [|done].
    destruct d as [| | | | |items]; try done. cbn [response_text].
    destruct (dict_get _ items) as [[| | |s| |]|] eqn:Hg; try done;
      intros [= <-]; exists status, body, items; (split_and!; [done..|]).
    + right. by exists s.
    + by left.
  - intros (status & body & items & -> & Hst & -> & Hf).
    assert (is_error_status status = false) as ->.
    { unfold is_error_status. apply andb_false_iff.
      destruct Hst; [left; apply Nat.leb_gt | right; apply Nat.ltb_ge]; lia. }
    cbn [response_text].
    destruct Hf as [[-> ->] | (s & -> & ->)]; done.
Qed.

(** A reply whose body is empty or only whitespace, and so no JSON, fails
    with [IndexError]: there is no last line to fall back to. *)
Theorem call_llm_blank_body w model prompt status body :
  post w model prompt = Reply status body → is_error_status status = false →
  spaces body → json_loads body = None →
  call_llm json_loads w model prompt = Raise IndexError.
Proof.
  intros Hp Hs Hb Hj. rewrite (call_llm_Reply json_loads w model prompt status body Hp Hs).
  unfold reply_data. by rewrite Hj, strip_spaces.
Qed.

(** A reply whose data is not an object, or whose response field is there
    but is not a string (a null, a number, a list), fails with
    [AttributeError]; the empty text stands in for an absent field only. *)
Theorem call_llm_attribute_error w model prompt status body d :
  post w model prompt = Reply status body → is_error_status status = false →
  reply_data json_loads body = Ok d →
  (∀ items, d ≠ PyDict items)
  ∨ (∃ items v, d = PyDict items ∧ dict_get (txt "response") items = Some v
                ∧ ∀ s, v ≠ PyStr s) →
  call_llm json_loads w model prompt = Raise AttributeError.
Proof.
  intros Hp Hs Hd Hbad.
  rewrite (call_llm_Reply json_loads w model prompt status body Hp Hs), Hd.
  destruct Hbad as [Hno | (items & v & -> & Hg & Hv)].
  - destruct d; try done. by destruct (Hno items).
  - cbn [response_text]. rewrite Hg. destruct v; try done. by destruct (Hv s).
Qed.

End CallFacts.

Lemma call_llm_blank_body_witness :
  call_llm JsonRef.json_loads (world_replying 200 [LF; LF]) (txt "mistral") task
  = Raise IndexError
  ∧ call_llm JsonRef.json_loads (world_replying 200 []) (txt "mistral") task
    = Raise IndexError.
Proof.
  split.
  - apply (call_llm_blank_body JsonRef.json_loads (world_replying 200 [LF; LF])
             (txt "mistral") task 200 [LF; LF]); try done.
    by repeat constructor.
  - apply (call_llm_blank_body JsonRef.json_loads (world_replying 200 [])
             (txt "mistral") task 200 []); try done.
    constructor.
Defined.

Lemma call_llm_attribute_error_witness :
  call_llm JsonRef.json_loads
    (world_replying 200 (txt "{" ++ quoted (txt "response") ++ txt ": null}"))
    (txt "mistral") task
  = Raise AttributeError
  ∧ call_llm JsonRef.json_loads (world_replying 200 (txt "[1]"))
      (txt "mistral") task
    = Raise AttributeError.
Proof.
  split.
  - apply (call_llm_attribute_error JsonRef.json_loads _ (txt "mistral") task 200
             (txt "{" ++ quoted (txt "response") ++ txt ": null}")
             (PyDict [(txt "response", PyNone)])); try done.
    right. exists [(txt "response", PyNone)], PyNone. done.
  - apply (call_llm_attribute_error JsonRef.json_loads _ (txt "mistral") task 200
             (txt "[1]") (PyList [PyNum (txt "1")])); try done.
    by left.
Defined.

Lemma call_llm_returns_iff_witness :
  call_llm JsonRef.json_loads (world_replying 304 (reply_body (txt " ok ")))
    (txt "mistral") task = Ok (txt "ok").
Proof.
  apply (call_llm_returns_iff JsonRef.json_loads).
  exists 304, (reply_body (txt " ok ")), [(txt "response", PyStr (txt " ok "))].
  split_and!; [done | left; lia | by vm_compute |].
  right. by exists (txt " ok ").
Defined.

(** ** The stream is whole frames *)

Lemma frames_of_frames fr :
  Forall wf_frame fr → frames_of (concat (frame_text <$> fr)) = fr.
Proof.
  induction 1 as [|f fr Hf Hfr IH]; [done|].
  rewrite fmap_cons. cbn [concat]. by rewrite frames_of_frame, IH.
Qed.

Lemma framed_snoc f s s' :
  wf_frame f → stream_of s' = stream_of s ++ frame_text f →
  framed s → framed s'.
Proof.
  intros Hf Hs (fr & Hwf & Hfr). exists (fr ++ [f]). split.
  - apply Forall_app. by split; [|constructor].
  - rewrite Hs, Hfr, fmap_app, concat_app. cbn [fmap list_fmap concat].
    by rewrite app_nil_r.
Qed.

Lemma framed_same_stream s s' : yielded s' = yielded s → framed s → framed s'.
Proof. intros Hy (fr & Hwf & Hfr). exists fr. unfold stream_of in *. by rewrite Hy. Qed.

Lemma preserves_bind {A B} P (m : gen A) (k : A → gen B) :
  preserves P m → (∀ a, preserves P (k a)) → preserves P (m ≫= k).
Proof.
  intros Hm Hk s Hs. unfold mbind, gen_bind. specialize (Hm s Hs).
  destruct (m s) as [[a|e] s']; cbn [snd] in *; [by apply Hk | done].
Qed.

Lemma preserves_lift {A} P (r : result A) : preserves P (lift r).
Proof. by intros s Hs. Qed.

Lemma framed_yield_status name :
  LF ∉ txt name → preserves framed (yield_status name).
Proof.
  intros Hn [f y l] Hs. apply (framed_snoc (status_frame name) (GState f y l)).
  - by apply status_frame_wf.
  - unfold yield_status, yield, stream_of. cbn [snd fs yielded launched].
    fold (status_chunk name). by rewrite concat_app, concat_status_chunk.
  - done.
Qed.

Lemma framed_yield_event tg payload :
  LF ∉ txt tg → preserves framed (yield_event tg payload).
Proof.
  intros Hn [f y l] Hs. rewrite yield_event_run. cbn [snd].
  apply (framed_snoc (stage_frame tg payload) (GState f y l)).
  - by apply stage_frame_wf.
  - unfold stream_of. cbn [yielded]. by rewrite concat_app, concat_event_chunks.
  - done.
Qed.

Lemma framed_run_tests w code tests : preserves framed (run_tests w code tests).
Proof.
  intros [f y l] Hs. rewrite run_tests_run. cbv zeta.
  destruct (spawn w unittest_argv _) as [|rc out err f2];
    [by apply (framed_same_stream (GState f y l))|].
  destruct (f2 !! module_file); [|by apply (framed_same_stream (GState f y l))].
  destruct (delete module_file f2 !! test_file);
    by apply (framed_same_stream (GState f y l)).
Qed.

Section RunFurther.

Context (json_loads : text → option pyval).

Lemma framed_event_stream w : preserves framed (event_stream json_loads w).
Proof.
  unfold event_stream.
  repeat first
    [ apply framed_yield_status; no_LF
    | apply framed_yield_event; no_LF
    | apply preserves_lift
    | apply framed_run_tests
    | apply preserves_bind; [|intros ?; cbv zeta] ].
Qed.

(** Whatever the backend and the host do, and also when an exception cuts
    the run short, the stream is whole frames: writing out again the frames
    read from it gives the stream itself, and no line of a frame holds a
    line feed. *)
Theorem stream_is_whole_frames w fs0 :
  let stream := stream_of (run json_loads w fs0).2 in
  concat (frame_text <$> frames_of stream) = stream
  ∧ Forall wf_frame (frames_of stream).
Proof.
  cbv zeta.
  destruct (framed_event_stream w (GState fs0 [] [])) as (fr & Hwf & Hs).
  { exists []. by split; [constructor|]. }
  unfold run. rewrite Hs. by rewrite frames_of_frames.
Qed.



(** After a run that ended well on a host whose tests change no file, the
    two file names are free and every other file is as it was: a file that
    had one of the two names before the run is gone. *)
Theorem successful_run_files w fs0 :
  (∀ argv f rc out err f', spawn w argv f = Completed rc out err f' → f' = f) →
  (run json_loads w fs0).1 = Ok tt →
  fs (run json_loads w fs0).2 = delete test_file (delete module_file fs0).
Proof.
  intros Hsame Hr. run_cases json_loads w fs0.
  match goal with H : spawn _ _ _ = Completed _ _ _ _ |- _ =>
    apply Hsame in H; subst end.
  unfold fs_run. apply map_eq. intros k.
  rewrite !lookup_delete, !lookup_insert. by repeat case_decide.
Qed.

(** When the tests ran to their end but the module file is no longer there,
    removing it raises: the run ends after the TestAgent's event and the
    test file is left as the child left it. *)
Theorem missing_module_stops_cleanup w fs0 rc rf rt code out err fs' :
  agents_ok json_loads w rc rf rt →
  spawn w unittest_argv (fs_run fs0 rc rt) = Completed code out err fs' →
  fs' !! module_file = None →
  (run json_loads w fs0).1 = Raise OSError
  ∧ fs (run json_loads w fs0).2 = fs'
  ∧ last (frames_of (stream_of (run json_loads w fs0).2))
    = Some (stage_frame "testagent" (test_preamble ++ extract_code rt)).
Proof.
  intros Hok Hs Hm. run_cases json_loads w fs0. done.
Qed.

Lemma generate_post_only p sp sp' a instruction :
  generate json_loads (World p sp') a instruction
  = generate json_loads (World p sp) a instruction.
Proof. reflexivity. Qed.

(** The exit status of the tests is never looked at: a host that differs
    only in the exit status it reports gives the same run, with the same
    stream, files and result. *)
Theorem exit_status_is_ignored p sp rc fs0 :
  run json_loads (World p (with_returncode rc sp)) fs0
  = run json_loads (World p sp) fs0.
Proof.
  unfold run, event_stream.
  rewrite !bind_yield_status.
  rewrite ?(generate_post_only p sp (with_returncode rc sp)).
  destruct (generate json_loads (World p sp) coder task) as [rc0|e];
    [|by rewrite !bind_lift_Raise].
  rewrite !bind_lift_Ok. cbv beta zeta.
  rewrite !bind_yield_event, !bind_yield_status.
  rewrite ?(generate_post_only p sp (with_returncode rc sp)).
  destruct (generate json_loads (World p sp) tester _) as [rf|e];
    [|by rewrite !bind_lift_Raise].
  rewrite !bind_lift_Ok. cbv beta zeta.
  rewrite !bind_yield_event, !bind_yield_status.
  rewrite ?(generate_post_only p sp (with_returncode rc sp)).
  destruct (generate json_loads (World p sp) test_agent _) as [rt|e];
    [|by rewrite !bind_lift_Raise].
  rewrite !bind_lift_Ok. cbv beta zeta.
  rewrite !bind_yield_event.
  unfold mbind, gen_bind. rewrite !run_tests_run. cbv zeta.
  cbn [spawn]. unfold with_returncode.
  destruct (sp unittest_argv _) as [|code out err fs']; [done|].
  destruct (fs' !! module_file); [|done].
  destruct (delete module_file fs' !! test_file); done.
Qed.

End RunFurther.

Lemma successful_run_files_witness :
  fs (run JsonRef.json_loads world_ok
        {[ module_file := txt "precious"; "notes.txt"%string := txt "kept" ]}).2
  = {[ "notes.txt"%string := txt "kept" ]}.
Proof.
  rewrite (successful_run_files JsonRef.json_loads world_ok).
  - by vm_compute.
  - by intros argv f rc out err f' [= _ _ _ <-].
  - by vm_compute.
Defined.

Lemma missing_module_stops_cleanup_witness :
  (run JsonRef.json_loads (World (stub_backend true) host_removes_module) ∅).1
  = Raise OSError
  ∧ fs (run JsonRef.json_loads (World (stub_backend true) host_removes_module) ∅).2
    = {[ test_file := test_preamble ++ stub_tests_body ]}
  ∧ last (frames_of (stream_of
            (run JsonRef.json_loads
               (World (stub_backend true) host_removes_module) ∅).2))
    = Some (stage_frame "testagent" (test_preamble ++ stub_tests_body)).
Proof.
  apply (missing_module_stops_cleanup JsonRef.json_loads
           (World (stub_backend true) host_removes_module) ∅
           stub_raw_code (txt "Looks good.") stub_tests_body 0 [] []).
  - split_and!; by vm_compute.
  - by vm_compute.
  - by vm_compute.
Defined.

(** ** A payload read back *)

Lemma extract_code_trimmed t : trimmed (extract_code t).
Proof. unfold extract_code. destruct (re_search fence_re t); apply strip_trimmed. Qed.

Lemma splitlines_from_nonempty s : ∀ cur,
  cur ≠ [] ∨ s ≠ [] → splitlines_from cur s ≠ [].
Proof.
  induction s as [|c s IH]; intros cur H.
  - destruct H as [H|H]; [|done]. by destruct cur.
  - cbn [splitlines_from]. destruct (is_linebreak c).
    + destruct s as [|d s]; [done|].
      by destruct (N.eqb c CR && N.eqb d LF).
    + apply IH. by left.
Qed.

Lemma join_lines_cons l ls :
  ls ≠ [] → join_lines (l :: ls) = l ++ LF :: join_lines ls.
Proof. by destruct ls. Qed.

Lemma join_splitlines_from s : ∀ cur,
  only_LF_breaks s → last s ≠ Some LF →
  join_lines (splitlines_from cur s) = rev cur ++ s.
Proof.
  induction s as [|c s IH]; intros cur Hs Hlast.
  - cbn [splitlines_from]. rewrite app_nil_r. by destruct cur.
  - apply Forall_cons in Hs as [Hc Hs]. cbn [splitlines_from].
    destruct (is_linebreak c) eqn:Hb.
    + rewrite (Hc eq_refl) in *. destruct s as [|d s]; [done|].
      change (N.eqb LF CR) with false. cbn [andb].
      rewrite join_lines_cons by (apply splitlines_from_nonempty; by right).
      rewrite IH; [done|done|]. by rewrite last_cons_cons in Hlast.
    + rewrite IH; [|done|].
      * simpl. by rewrite <- app_assoc.
      * destruct s; [|by rewrite last_cons_cons in Hlast]. done.
Qed.

Lemma join_splitlines t :
  trimmed t → only_LF_breaks t → join_lines (splitlines t) = t.
Proof.
  intros [_ Hlast] Hs. unfold splitlines. rewrite join_splitlines_from; [done..|].
  intros H. by specialize (Hlast _ H).
Qed.

Section PayloadFacts.

Context (json_loads : text → option pyval).

(** Once the Coder has answered, the second frame of the stream is its
    event, and when the extracted code has no line break other than LF, the
    lines of that event put together with LF are the extracted code,
    character for character. *)
Theorem coder_payload_round_trip w fs0 rc :
  generate json_loads w coder task = Ok rc →
  only_LF_breaks (extract_code rc) →
  ∃ f, frames_of (stream_of (run json_loads w fs0).2) !! 1 = Some f
       ∧ tag f = txt "coder"
       ∧ join_lines (data f) = extract_code rc.
Proof.
  intros Hc Hlf. exists (stage_frame "coder" (extract_code rc)).
  assert (join_lines (data (stage_frame "coder" (extract_code rc)))
          = extract_code rc) as Hj.
  { apply join_splitlines; [apply extract_code_trimmed | done]. }
  run_cases json_loads w fs0; done.
Qed.

End PayloadFacts.

Lemma coder_payload_round_trip_witness :
  ∃ f, frames_of (stream_of (run JsonRef.json_loads world_tester_down ∅).2) !! 1
       = Some f
       ∧ tag f = txt "coder"
       ∧ join_lines (data f) = stub_code.
Proof.
  apply (coder_payload_round_trip JsonRef.json_loads world_tester_down ∅
           stub_raw_code).
  - by vm_compute.
  - apply Forall_forall. intros c Hc Hb.
    by vm_compute in Hc; repeat (apply elem_of_cons in Hc as [->|Hc]; [done|]);
      apply elem_of_nil in Hc.
Defined.

(** ** [main] of [multi_agent_ollama.py] *)

Section CliFacts.

Context (json_loads : text → option pyval) (lower : text → text)
        (backend : nat → text → text → http_result).

Local Abbreviation ans := (answer json_loads backend).
Local Abbreviation ask := (cli_ask json_loads backend).
Local Abbreviation rounds := (review_rounds json_loads lower backend).
Local Abbreviation the_run := (run_main json_loads lower backend).

Lemma bind_print {B} args (k : unit → cli B) r p :
  (print_args args ≫= k) (CliState r p)
  = k tt (CliState r (p ++ [join_with (txt " ") args ++ [LF]])).
Proof. reflexivity. Qed.

Lemma bind_ask {B} a instruction (k : text → cli B) r p :
  (ask a instruction ≫= k) (CliState r p)
  = match ans (length r) a instruction with
    | Ok t => k t (CliState (r ++ [(model a, cli_prompt_of a instruction)]) p)
    | Raise e =>
        (Raise e, CliState (r ++ [(model a, cli_prompt_of a instruction)]) p)
    end.
Proof.
  unfold mbind, cli_bind, cli_ask, answer. cbn [requests printed].
  by destruct (cli_generate _ _ _ _).
Qed.

Lemma review_rounds_cons round_num rest code r p :
  rounds (round_num :: rest) code (CliState r p)
  = match ans (length r) cli_tester (cli_review_instruction code) with
    | Raise e =>
        (Raise e,
         CliState (r ++ [(model cli_tester,
                          cli_prompt_of cli_tester (cli_review_instruction code))]) p)
    | Ok feedback =>
        let r1 := r ++ [(model cli_tester,
                         cli_prompt_of cli_tester (cli_review_instruction code))] in
        let p1 := p ++ [join_with (txt " ")
                          [txt "[Tester] Review round " ++ txt (pretty round_num)
                             ++ txt ":" ++ [LF]; feedback; [LF]] ++ [LF]] in
        if approves lower feedback then
          (Ok code,
           CliState r1
             (p1 ++ [join_with (txt " ")
                       [txt "[Tester] No further issues found." ++ [LF]] ++ [LF]]))
        else
          match ans (length r1) cli_coder
                  (cli_improve_instruction feedback code) with
          | Raise e =>
              (Raise e,
               CliState (r1 ++ [(model cli_coder,
                                 cli_prompt_of cli_coder
                                   (cli_improve_instruction feedback code))]) p1)
          | Ok code' =>
              rounds rest code'
                (CliState (r1 ++ [(model cli_coder,
                                   cli_prompt_of cli_coder
                                     (cli_improve_instruction feedback code))])
                   (p1 ++ [join_with (txt " ")
                             [txt "[Coder] Updated code round "
                                ++ txt (pretty round_num) ++ txt ":" ++ [LF];
                              code'; [LF]] ++ [LF]]))
          end
    end.
Proof.
  cbn [review_rounds]. rewrite bind_ask.
  destruct (ans (length r) cli_tester _) as [feedback|e]; [|done].
  rewrite bind_print. cbv zeta.
  destruct (approves lower feedback); [done|].
  rewrite bind_ask.
  destruct (ans _ cli_coder _) as [code'|e]; [|done].
  by rewrite bind_print.
Qed.

Lemma review_rounds_nil code s : rounds [] code s = (Ok code, s).
Proof. reflexivity. Qed.

End CliFacts.

(** Every way [main] can go: the answers are taken one by one. *)
Ltac main_cases :=
  let rs := fresh "rs" in
  let E := fresh "E" in
  remember (run_main _ _ _) as rs eqn:E; revert E;
  unfold run_main, main, max_rounds; cbn [seq];
  rewrite bind_print, bind_ask; cbn [length app];
  destruct (answer _ _ 0 cli_coder task) as [?|?] eqn:?;
  [ rewrite bind_print; unfold mbind at 1, cli_bind at 1;
    rewrite review_rounds_cons; cbv zeta; cbn [length app];
    destruct (answer _ _ 1 cli_tester _) as [?|?] eqn:?;
    [ match goal with |- context [approves ?l ?f] =>
        destruct (approves l f) eqn:? end;
      [ rewrite bind_ask; cbn [length app];
        destruct (answer _ _ 2 cli_documenter _) as [?|?] eqn:?
      | destruct (answer _ _ 2 cli_coder _) as [?|?] eqn:?;
        [ rewrite review_rounds_cons; cbv zeta; cbn [length app];
          destruct (answer _ _ 3 cli_tester _) as [?|?] eqn:?;
          [ match goal with |- context [approves ?l ?f] =>
        destruct (approves l f) eqn:? end;
            [ rewrite bind_ask; cbn [length app];
              destruct (answer _ _ 4 cli_documenter _) as [?|?] eqn:?
            | destruct (answer _ _ 4 cli_coder _) as [?|?] eqn:?;
              [ rewrite review_rounds_nil, bind_ask; cbn [length app];
                destruct (answer _ _ 5 cli_documenter _) as [?|?] eqn:?
              | ] ]
          | ]
        | ] ]
    | ]
  | ];
  intros ->; unfold print_args; cbn [fst snd requests printed].

Section CliClaims.

Context (json_loads : text → option pyval) (lower : text → text)
        (backend : nat → text → text → http_result).

Local Abbreviation ans := (answer json_loads backend).
Local Abbreviation the_run := (run_main json_loads lower backend).

(** [main] makes at most six requests, the first of them the Coder's task;
    a run that ends well has made three, five or six. *)
Theorem main_requests_bounded :
  requests the_run.2 !! 0 = Some (request_of cli_coder task)
  ∧ length (requests the_run.2) ≤ 6
  ∧ (the_run.1 = Ok tt → length (requests the_run.2) ∈ [3; 5; 6]).
Proof.
  main_cases; (split_and!; [done | cbn [length]; lia | ]);
    first [ done | intros _; cbn [length]; set_solver ].
Qed.




End CliClaims.

(** *** [main] on scripted backends *)

Lemma main_requests_bounded_witness :
  length (requests (run_main JsonRef.json_loads lower_ascii
                      (scripted script_rejected)).2) ∈ [3; 5; 6].
Proof.
  apply (main_requests_bounded JsonRef.json_loads lower_ascii
           (scripted script_rejected)).
  by vm_compute.
Defined.




(** ** The two files after a run *)

Section CleanupFacts.

Context (json_loads : text → option pyval).

(** When the tests were launched and the run did not end with the test
    stage's [OSError], that is when it ended well or at the Documenter,
    neither of the two files is left. *)
Theorem files_removed_after_tests w fs0 :
  launched (run json_loads w fs0).2 ≠ [] →
  (run json_loads w fs0).1 ≠ Raise OSError →
  fs (run json_loads w fs0).2 !! module_file = None
  ∧ fs (run json_loads w fs0).2 !! test_file = None.
Proof.
  intros Hl Hr. run_cases json_loads w fs0; try done.
  - split; [by rewrite lookup_delete_ne, lookup_delete_eq | by rewrite lookup_delete_eq].
  - split; [by rewrite lookup_delete_ne, lookup_delete_eq | by rewrite lookup_delete_eq].
Qed.

End CleanupFacts.

Lemma files_removed_after_tests_witness :
  fs (run JsonRef.json_loads world_ok {[ module_file := txt "old" ]}).2
    !! module_file = None
  ∧ fs (run JsonRef.json_loads world_ok {[ module_file := txt "old" ]}).2
      !! test_file = None.
Proof.
  apply (files_removed_after_tests JsonRef.json_loads world_ok).
  - by vm_compute.
  - by vm_compute.
Defined.
